(** * Client scripts of the contract program: instruction building

    The repository is a set of Node scripts.  Each one reads its
    command-line arguments, derives a program address from two public
    keys and an identifier, serialises a three-field record with borsh,
    builds one [TransactionInstruction] and hands it to
    [sendAndConfirmTransaction] together with the list of signers.

    This development embeds the scripts as functions from the process
    arguments to the value handed to [sendAndConfirmTransaction], in an
    exception monad.  The library calls the scripts make ([parseInt],
    [Buffer.from], [borsh.serialize], [new PublicKey],
    [PublicKey.findProgramAddressSync]) are embedded next to them.  The hash
    and the curve test used by the address derivation, and the
    environment the key pairs are read from, are fields of the [Host]
    class.

    Strings are the Standard Library's byte strings: a script argument
    is held as its UTF-8 bytes, which is what [Buffer.from] and the borsh
    string encoder produce from a well-formed JavaScript string. *)

From Stdlib Require Import ZArith List Bool Lia.
From Stdlib.Strings Require Import String Ascii Byte.
Import ListNotations.

Local Open Scope string_scope.
Local Open Scope list_scope.
Local Open Scope Z_scope.

(** ** Exceptions *)

(** The exception classes the scripts can meet.  [findProgramAddressSync]
    tells [TypeError] from the rest, so the class is kept. *)
Inductive Exception : Type :=
| Error
| TypeError
| RangeError
| SyntaxError.

Inductive Result (A : Type) : Type :=
| Ok (a : A)
| Throw (e : Exception).

Arguments Ok {A} a.
Arguments Throw {A} e.

Definition bind {A B : Type} (r : Result A) (k : A -> Result B) : Result B :=
  match r with
  | Ok a => k a
  | Throw e => Throw e
  end.

Notation "x <- r ;; k" := (bind r (fun x => k))
  (at level 61, r at next level, right associativity).
Notation "' p <- r ;; k" := (bind r (fun x => let p := x in k))
  (at level 61, p pattern, r at next level, right associativity).

(** ** Bytes and fixed-width integers *)

(** Storing a number into a [Uint8Array] cell keeps its low eight bits. *)
Definition byte_of_Z (z : Z) : byte :=
  match Byte.of_N (Z.to_N (Z.land z 255)) with
  | Some b => b
  | None => x00
  end.

Definition Z_of_byte (b : byte) : Z := Z.of_N (Byte.to_N b).

(** Little-endian layout of [len] bytes: the loop of borsh's
    [encode_bigint] ([buffer[i] = value & 0xff; value = value >> 8]) and
    the layout [DataView.setUintN(offset, value, true)] writes. *)
Fixpoint encode_le (len : nat) (value : Z) : list byte :=
  match len with
  | O => []
  | S k => byte_of_Z (Z.land value 255) :: encode_le k (Z.shiftr value 8)
  end.

Fixpoint decode_le (bs : list byte) : Z :=
  match bs with
  | [] => 0
  | b :: rest => Z_of_byte b + 256 * decode_le rest
  end.

(** Big-endian layout, as [BN.toArrayLike(Buffer)] padded to [len] bytes
    and [new BN(bytes)] use. *)
Definition encode_be (len : nat) (value : Z) : list byte :=
  rev (encode_le len value).

Definition decode_be (bs : list byte) : Z := decode_le (rev bs).

(** ** JavaScript numbers and values *)

(** The numbers the scripts handle: [parseInt] returns an integral
    double, [NaN] or an infinity; the literals are integers. *)
Inductive JsNumber : Type :=
| Num (z : Z)
| NaN
| Infinity (negative : bool).

Inductive JsValue : Type :=
| VUndefined
| VNumber (n : JsNumber)
| VBigInt (z : Z)
| VString (s : string).

(** An object literal: its own properties, in order. *)
Definition JsObject : Type := list (string * JsValue).

Fixpoint get (o : JsObject) (key : string) : JsValue :=
  match o with
  | [] => VUndefined
  | (k, v) :: rest => if String.eqb k key then v else get rest key
  end.

(** A value of [process.argv]: a string, or [undefined] past the end. *)
Definition JsArg : Type := option string.

Definition value_of_arg (a : JsArg) : JsValue :=
  match a with
  | Some s => VString s
  | None => VUndefined
  end.

(** The UTF-8 bytes of a string, as numbers. *)
Definition codes (s : string) : list Z :=
  map Z_of_byte (list_byte_of_string s).

(** ** [parseInt] *)

(** The ECMAScript function without a radix argument: leading white space
    is dropped, then a sign, then the prefix 0x or 0X which selects radix
    16; the longest run of digits is the integer, and no digit at all is
    [NaN]. *)

Definition isAsciiWhiteSpace (c : Z) : bool :=
  (c =? 9) || (c =? 10) || (c =? 11) || (c =? 12) || (c =? 13) || (c =? 32).

(** The white space and line terminators outside ASCII, by their UTF-8
    bytes: U+1680, U+2000..U+200A, U+2028, U+2029, U+202F, U+205F, U+3000
    and U+FEFF (U+00A0 has two bytes and is tested apart). *)
Definition isWhiteSpace3 (c1 c2 c3 : Z) : bool :=
  ((c1 =? 225) && (c2 =? 154) && (c3 =? 128))
  || ((c1 =? 226) && (c2 =? 128)
      && (((128 <=? c3) && (c3 <=? 138)) || (c3 =? 168) || (c3 =? 169) || (c3 =? 175)))
  || ((c1 =? 226) && (c2 =? 129) && (c3 =? 159))
  || ((c1 =? 227) && (c2 =? 128) && (c3 =? 128))
  || ((c1 =? 239) && (c2 =? 187) && (c3 =? 191)).

Fixpoint trimStart (cs : list Z) : list Z :=
  match cs with
  | [] => []
  | c1 :: r1 =>
      if isAsciiWhiteSpace c1 then trimStart r1
      else
        match r1 with
        | [] => cs
        | c2 :: r2 =>
            if (c1 =? 194) && (c2 =? 160) then trimStart r2
            else
              match r2 with
              | [] => cs
              | c3 :: r3 => if isWhiteSpace3 c1 c2 c3 then trimStart r3 else cs
              end
        end
  end.

(** Value of a digit character, [None] for any other character. *)
Definition digitValue (c : Z) : option Z :=
  if (48 <=? c) && (c <=? 57) then Some (c - 48)
  else if (97 <=? c) && (c <=? 122) then Some (c - 87)
  else if (65 <=? c) && (c <=? 90) then Some (c - 55)
  else None.

Definition isDigit (radix c : Z) : bool :=
  match digitValue c with
  | Some d => d <? radix
  | None => false
  end.

(** The longest prefix of radix-[radix] digits. *)
Fixpoint takeDigits (radix : Z) (cs : list Z) : list Z :=
  match cs with
  | [] => []
  | c :: rest => if isDigit radix c then c :: takeDigits radix rest else []
  end.

Definition mathInt (radix : Z) (digits : list Z) : Z :=
  fold_left
    (fun acc c => match digitValue c with
                  | Some d => acc * radix + d
                  | None => acc
                  end)
    digits 0.

(** The Number value of a non-negative integer: the nearest double, ties
    to even; an infinity from 2^1024 on. *)
Definition roundToDouble (negative : bool) (m : Z) : JsNumber :=
  let e := Z.log2 m in
  let signed (v : Z) := if negative then - v else v in
  if e <? 53 then Num (signed m)
  else
    let sh := e - 52 in
    let q := Z.shiftr m sh in
    let r := m - Z.shiftl q sh in
    let half := Z.shiftl 1 (sh - 1) in
    let q' := if (half <? r) || ((r =? half) && Z.odd q) then q + 1 else q in
    let v := Z.shiftl q' sh in
    if Z.shiftl 1 1024 <=? v then Infinity negative else Num (signed v).

Definition stripSign (cs : list Z) : bool * list Z :=
  match cs with
  | c :: rest =>
      if c =? 45 then (true, rest)
      else if c =? 43 then (false, rest)
      else (false, cs)
  | [] => (false, [])
  end.

Definition stripHexPrefix (cs : list Z) : Z * list Z :=
  match cs with
  | c1 :: c2 :: rest =>
      if (c1 =? 48) && ((c2 =? 120) || (c2 =? 88)) then (16, rest) else (10, cs)
  | _ => (10, cs)
  end.

(** [parseInt(string)] with no radix argument. *)
Definition parseInt (input : string) : JsNumber :=
  let S0 := trimStart (codes input) in
  let '(negative, S1) := stripSign S0 in
  let '(R, S2) := stripHexPrefix S1 in
  let digits := takeDigits R S2 in
  match digits with
  | [] => NaN
  | _ => roundToDouble negative (mathInt R digits)
  end.

(** [parseInt(process.argv[i])]: an absent argument is [undefined], whose
    string is "undefined". *)
Definition parseInt_arg (a : JsArg) : JsNumber :=
  match a with
  | Some s => parseInt s
  | None => parseInt "undefined"
  end.

(** ** [BigInt(value)] *)

(** [trimStart] read from the other end: the argument is the reversed
    string. *)
Fixpoint trimEndRev (cs : list Z) : list Z :=
  match cs with
  | [] => []
  | c1 :: r1 =>
      if isAsciiWhiteSpace c1 then trimEndRev r1
      else
        match r1 with
        | [] => cs
        | c2 :: r2 =>
            if (c2 =? 194) && (c1 =? 160) then trimEndRev r2
            else
              match r2 with
              | [] => cs
              | c3 :: r3 => if isWhiteSpace3 c3 c2 c1 then trimEndRev r3 else cs
              end
        end
  end.

Definition trim (cs : list Z) : list Z :=
  rev (trimEndRev (rev (trimStart cs))).

Definition stripRadixPrefix (cs : list Z) : option (Z * list Z) :=
  match cs with
  | c1 :: c2 :: rest =>
      if c1 =? 48 then
        if (c2 =? 120) || (c2 =? 88) then Some (16, rest)
        else if (c2 =? 111) || (c2 =? 79) then Some (8, rest)
        else if (c2 =? 98) || (c2 =? 66) then Some (2, rest)
        else None
      else None
  | _ => None
  end.

Definition integerLiteral (radix : Z) (digits : list Z) : option Z :=
  match digits with
  | [] => None
  | _ => if forallb (isDigit radix) digits then Some (mathInt radix digits) else None
  end.

(** The text of a string as a BigInt: white space around an optional
    integer literal, decimal with an optional sign or prefixed and
    unsigned; the empty text is zero. *)
Definition StringToBigInt (s : string) : option Z :=
  match trim (codes s) with
  | [] => Some 0
  | text =>
      match stripRadixPrefix text with
      | Some (R, digits) => integerLiteral R digits
      | None =>
          let '(negative, digits) := stripSign text in
          match integerLiteral 10 digits with
          | Some m => Some (if negative then - m else m)
          | None => None
          end
      end
  end.

(** [BigInt(value)]: a number converts when it is an integer and is a
    [RangeError] otherwise. *)
Definition BigInt (value : JsValue) : Result Z :=
  match value with
  | VUndefined => Throw TypeError
  | VNumber (Num z) => Ok z
  | VNumber NaN => Throw RangeError
  | VNumber (Infinity _) => Throw RangeError
  | VBigInt z => Ok z
  | VString s =>
      match StringToBigInt s with
      | Some z => Ok z
      | None => Throw SyntaxError
      end
  end.

(** ** borsh *)

(** The serialiser of the borsh package for the schema format the scripts
    write, with its default validation of the value.  A field of at most
    32 bits must be a number and is stored through a [DataView]; a wider
    one is converted with [BigInt] and written byte by byte; a string is
    its length on 32 bits followed by its UTF-8 bytes.  The reader of the
    same package is embedded next to it. *)

Module borsh.

(** The type names a schema of the scripts can hold. *)
Inductive FieldType : Type := u8 | u16 | u32 | u64 | u128 | string_t.

(** [{ struct: { key: type, ... } }], keys in insertion order. *)
Record Schema : Type := { struct : list (string * FieldType) }.

(** [parseInt(schema.substring(1))] for the integer types. *)
Definition size (t : FieldType) : Z :=
  match t with
  | u8 => 8
  | u16 => 16
  | u32 => 32
  | u64 => 64
  | u128 => 128
  | string_t => 0
  end.

(** [DataView.setUintN(offset, value, true)]: the value is taken modulo
    2^N; [NaN] and the infinities store zero. *)
Definition store_value (n : JsNumber) (bytes : nat) : list byte :=
  match n with
  | Num z => encode_le bytes (z mod 2 ^ (8 * Z.of_nat bytes))
  | _ => encode_le bytes 0
  end.

Definition encode_integer (value : JsValue) (t : FieldType) : Result (list byte) :=
  if size t <=? 32 then
    match value with
    | VNumber n => Ok (store_value n (Z.to_nat (size t / 8)))
    | _ => Throw Error
    end
  else
    match value with
    | VUndefined => Throw Error
    | _ => z <- BigInt value ;; Ok (encode_le (Z.to_nat (size t / 8)) z)
    end.

(** Four bytes of length, then the UTF-8 bytes. *)
Definition encode_string (value : JsValue) : Result (list byte) :=
  match value with
  | VString s =>
      let utf8Bytes := list_byte_of_string s in
      Ok (store_value (Num (Z.of_nat (List.length utf8Bytes))) 4 ++ utf8Bytes)
  | _ => Throw Error
  end.

Definition encode_value (value : JsValue) (t : FieldType) : Result (list byte) :=
  match t with
  | string_t => encode_string value
  | _ => encode_integer value t
  end.

(** The fields are written in the order of the schema's keys. *)
Fixpoint encode_struct (value : JsObject) (fields : list (string * FieldType))
  : Result (list byte) :=
  match fields with
  | [] => Ok []
  | (key, t) :: rest =>
      encoded <- encode_value (get value key) t ;;
      tail <- encode_struct value rest ;;
      Ok (encoded ++ tail)
  end.

Definition serialize (schema : Schema) (value : JsObject) : Result (list byte) :=
  encode_struct value (struct schema).

(** The reader: [consume_bytes] fails on a buffer that is too short. *)
Definition consume_bytes (len : nat) (buffer : list byte)
  : Result (list byte * list byte) :=
  if (List.length buffer <? len)%nat then Throw Error
  else Ok (firstn len buffer, skipn len buffer).

Definition decode_integer (t : FieldType) (buffer : list byte)
  : Result (JsValue * list byte) :=
  '(bytes, rest) <- consume_bytes (Z.to_nat (size t / 8)) buffer ;;
  if size t <=? 32 then Ok (VNumber (Num (decode_le bytes)), rest)
  else Ok (VBigInt (decode_le bytes), rest).

Definition decode_string (buffer : list byte) : Result (JsValue * list byte) :=
  '(lenBytes, rest) <- consume_bytes 4 buffer ;;
  '(bytes, rest') <- consume_bytes (Z.to_nat (decode_le lenBytes)) rest ;;
  Ok (VString (string_of_list_byte bytes), rest').

Definition decode_value (t : FieldType) (buffer : list byte)
  : Result (JsValue * list byte) :=
  match t with
  | string_t => decode_string buffer
  | _ => decode_integer t buffer
  end.

Fixpoint decode_struct (fields : list (string * FieldType)) (buffer : list byte)
  : Result (JsObject * list byte) :=
  match fields with
  | [] => Ok ([], buffer)
  | (key, t) :: rest =>
      '(value, buffer') <- decode_value t buffer ;;
      '(tail, buffer'') <- decode_struct rest buffer' ;;
      Ok ((key, value) :: tail, buffer'')
  end.

Definition deserialize (schema : Schema) (buffer : list byte) : Result JsObject :=
  '(value, _) <- decode_struct (struct schema) buffer ;;
  Ok value.

End borsh.

(** ** web3.js: public keys *)

(** The parts of [PublicKey] the scripts use: the constructor from a
    base-58 string, [toBuffer] and [findProgramAddressSync]. *)

Module bs58.

Definition ALPHABET : string :=
  "123456789ABCDEFGHJKLMNPQRSTUVWXYZabcdefghijkmnopqrstuvwxyz".

Fixpoint indexOf (c : ascii) (alphabet : string) (i : Z) : option Z :=
  match alphabet with
  | EmptyString => None
  | String a rest => if Ascii.eqb a c then Some i else indexOf c rest (i + 1)
  end.

Fixpoint digits (source : string) : option (list Z) :=
  match source with
  | EmptyString => Some []
  | String c rest =>
      match indexOf c ALPHABET 0, digits rest with
      | Some d, Some ds => Some (d :: ds)
      | _, _ => None
      end
  end.

Fixpoint leadingZeros (ds : list Z) : nat :=
  match ds with
  | d :: rest => if d =? 0 then S (leadingZeros rest) else O
  | [] => O
  end.

(** Bytes needed for [z]: [BN.byteLength]. *)
Definition byteLength (z : Z) : Z :=
  if z <=? 0 then 0 else Z.log2 z / 8 + 1.

(** A leading '1' is a zero byte; the rest is a number in base 58,
    written big-endian without padding.  A character outside the
    alphabet is an [Error]. *)
Definition decode (source : string) : Result (list byte) :=
  match digits source with
  | None => Throw Error
  | Some ds =>
      let value := fold_left (fun acc d => acc * 58 + d) ds 0 in
      Ok (repeat x00 (leadingZeros ds)
            ++ encode_be (Z.to_nat (byteLength value)) value)
  end.

End bs58.

Definition PUBLIC_KEY_LENGTH : Z := 32.
Definition MAX_SEED_LENGTH : Z := 32.

(** A public key is held as a big number ([_bn]). *)
Record PublicKey : Type := { _bn : Z }.

(** [new PublicKey(value)] for a base-58 string. *)
Definition PublicKey_of_string (value : string) : Result PublicKey :=
  decoded <- bs58.decode value ;;
  if negb (Z.of_nat (List.length decoded) =? PUBLIC_KEY_LENGTH) then Throw Error
  else
    let bn := decode_be decoded in
    if PUBLIC_KEY_LENGTH <? bs58.byteLength bn then Throw Error
    else Ok {| _bn := bn |}.

(** [new PublicKey(value)] for a byte array. *)
Definition PublicKey_of_bytes (value : list byte) : Result PublicKey :=
  let bn := decode_be value in
  if PUBLIC_KEY_LENGTH <? bs58.byteLength bn then Throw Error
  else Ok {| _bn := bn |}.

(** [toBuffer()]: the number big-endian, padded with zeros to 32 bytes. *)
Definition toBuffer (key : PublicKey) : list byte :=
  encode_be (Z.to_nat PUBLIC_KEY_LENGTH) (_bn key).

Definition unwrap (r : Result PublicKey) : PublicKey :=
  match r with
  | Ok key => key
  | Throw _ => {| _bn := 0 |}
  end.

Record Keypair : Type := {
  publicKey : PublicKey;
  secretKey : list byte
}.

(** What the scripts take from their host: the hash and the curve test
    inside the address derivation, and the key pair a variable of the
    environment holds ([None] when it is unset or not a secret key). *)
Class Host : Type := {
  sha256 : list byte -> list byte;
  isOnCurve : list byte -> bool;
  environment : string -> option Keypair
}.

(** [Buffer.from(value)]: the UTF-8 bytes of a string; [undefined] is a
    [TypeError]. *)
Definition Buffer_from (value : JsArg) : Result (list byte) :=
  match value with
  | Some s => Ok (list_byte_of_string s)
  | None => Throw TypeError
  end.

Section ProgramAddress.

Context `{host : Host}.

(** [getKeypairFromEnvironment(variableName)]: a missing variable is an
    [Error]; the property name [undefined] is the string "undefined". *)
Definition getKeypairFromEnvironment (variableName : JsArg) : Result Keypair :=
  let name := match variableName with Some s => s | None => "undefined" end in
  match environment name with
  | Some keypair => Ok keypair
  | None => Throw Error
  end.

(** The [forEach] over the seeds: a seed longer than 32 bytes is a
    [TypeError], the others are appended. *)
Fixpoint concatSeeds (seeds : list (list byte)) (buffer : list byte)
  : Result (list byte) :=
  match seeds with
  | [] => Ok buffer
  | seed :: rest =>
      if MAX_SEED_LENGTH <? Z.of_nat (List.length seed) then Throw TypeError
      else concatSeeds rest (buffer ++ seed)
  end.

Definition createProgramAddressSync (seeds : list (list byte)) (programId : PublicKey)
  : Result PublicKey :=
  buffer <- concatSeeds seeds [] ;;
  let buffer := buffer ++ toBuffer programId
                  ++ list_byte_of_string "ProgramDerivedAddress" in
  let publicKeyBytes := sha256 buffer in
  if isOnCurve publicKeyBytes then Throw Error
  else PublicKey_of_bytes publicKeyBytes.

(** The body of [while (nonce != 0)]: a [TypeError] is thrown again, any
    other exception tries the next nonce; with no nonce left the search
    is an [Error]. *)
Fixpoint findNonce (seeds : list (list byte)) (programId : PublicKey) (nonce : nat)
  : Result (PublicKey * Z) :=
  match nonce with
  | O => Throw Error
  | S next =>
      let seedsWithNonce := seeds ++ [[byte_of_Z (Z.of_nat nonce)]] in
      match createProgramAddressSync seedsWithNonce programId with
      | Ok address => Ok (address, Z.of_nat nonce)
      | Throw TypeError => Throw TypeError
      | Throw _ => findNonce seeds programId next
      end
  end.

Definition findProgramAddressSync (seeds : list (list byte)) (programId : PublicKey)
  : Result (PublicKey * Z) :=
  findNonce seeds programId 255.

End ProgramAddress.

(** ** web3.js: instructions and transactions *)

Module web3.

Record AccountMeta : Type := {
  pubkey : PublicKey;
  isSigner : bool;
  isWritable : bool
}.

Record TransactionInstruction : Type := {
  keys : list AccountMeta;
  programId : PublicKey;
  data : list byte
}.

(** A transaction is the list of the instructions added to it. *)
Definition Transaction : Type := list TransactionInstruction.

Definition add (transaction : Transaction) (instruction : TransactionInstruction)
  : Transaction :=
  transaction ++ [instruction].

(** The arguments of [sendAndConfirmTransaction]: the cluster of the
    connection, the transaction and the signers. *)
Record Submission : Type := {
  cluster : string;
  transaction : Transaction;
  signers : list Keypair
}.

End web3.

Import web3.

Module SystemProgram.
Definition programId : PublicKey :=
  Eval vm_compute in unwrap (PublicKey_of_string "11111111111111111111111111111111").
End SystemProgram.

(** [process.argv[i]] *)
Definition argument (argv : list string) (i : nat) : JsArg := nth_error argv i.

(** ** The scripts *)

(** src/client-lib/increment-worker.ts, first script (lines 1-75): the
    increment-step operation. *)
Module IncrementWorker.

Definition echoSchema : borsh.Schema :=
  {| borsh.struct :=
       [("variant", borsh.u8); ("id", borsh.string_t); ("number", borsh.u64)] |}.

Definition programId : PublicKey :=
  Eval vm_compute in
    unwrap (PublicKey_of_string "D1JKf9t3tEBzP7jES8bUzCQdLSYSqfcJ2S558AbQruJm").

Section Script.

Context `{host : Host}.
Variables (senderKeypair workerKeypair : Keypair) (id : JsArg).

Definition pda_contract : Result PublicKey :=
  seed <- Buffer_from id ;;
  '(address, _) <- findProgramAddressSync
                     [toBuffer (publicKey senderKeypair);
                      toBuffer (publicKey workerKeypair);
                      seed]
                     programId ;;
  Ok address.

Definition instructionData : Result (list byte) :=
  borsh.serialize echoSchema
    [("variant", VNumber (Num 4)); ("id", value_of_arg id);
     ("number", VNumber (Num 0))].

Definition instruction (pda_contract : PublicKey) (instructionData : list byte)
  : TransactionInstruction :=
  {| keys :=
       [ {| pubkey := publicKey senderKeypair;
            isSigner := true;
            isWritable := true |};
         {| pubkey := publicKey workerKeypair;
            isSigner := false;
            isWritable := true |};
         {| pubkey := pda_contract;
            isSigner := false;
            isWritable := true |};
         {| pubkey := SystemProgram.programId;
            isSigner := false;
            isWritable := false |} ];
     web3.programId := programId;
     data := instructionData |}.

End Script.

Definition main `{host : Host} (argv : list string) : Result Submission :=
  senderKeypair <- getKeypairFromEnvironment (argument argv 2) ;;
  workerKeypair <- getKeypairFromEnvironment (argument argv 3) ;;
  let id := argument argv 4 in
  pda_contract <- pda_contract senderKeypair workerKeypair id ;;
  instructionData <- instructionData id ;;
  let transaction := add [] (instruction senderKeypair workerKeypair
                               pda_contract instructionData) in
  Ok {| cluster := "devnet";
        transaction := transaction;
        signers := [senderKeypair] |}.

End IncrementWorker.

(** src/client-lib/increment-worker.ts, second script (lines 76-153): the
    create / quantity operation. *)
Module CreateQuantity.

Definition echoSchema : borsh.Schema :=
  {| borsh.struct :=
       [("variant", borsh.u8); ("id", borsh.string_t); ("number", borsh.u64)] |}.

Definition programId : PublicKey :=
  Eval vm_compute in
    unwrap (PublicKey_of_string "D1JKf9t3tEBzP7jES8bUzCQdLSYSqfcJ2S558AbQruJm").

Section Script.

Context `{host : Host}.
Variables (senderKeypair workerKeypair : Keypair) (id : JsArg)
          (quantity : JsNumber).

Definition pda : Result PublicKey :=
  seed <- Buffer_from id ;;
  '(address, _) <- findProgramAddressSync
                     [toBuffer (publicKey senderKeypair);
                      toBuffer (publicKey workerKeypair);
                      seed]
                     programId ;;
  Ok address.

Definition instructionData : Result (list byte) :=
  borsh.serialize echoSchema
    [("variant", VNumber (Num 2)); ("id", value_of_arg id);
     ("number", VNumber quantity)].

Definition instruction (pda : PublicKey) (instructionData : list byte)
  : TransactionInstruction :=
  {| keys :=
       [ {| pubkey := publicKey senderKeypair;
            isSigner := true;
            isWritable := true |};
         {| pubkey := publicKey workerKeypair;
            isSigner := false;
            isWritable := false |};
         {| pubkey := pda;
            isSigner := false;
            isWritable := true |};
         {| pubkey := SystemProgram.programId;
            isSigner := false;
            isWritable := false |} ];
     web3.programId := programId;
     data := instructionData |}.

End Script.

Definition main `{host : Host} (argv : list string) : Result Submission :=
  senderKeypair <- getKeypairFromEnvironment (argument argv 2) ;;
  workerKeypair <- getKeypairFromEnvironment (argument argv 3) ;;
  let id := argument argv 4 in
  let quantity := parseInt_arg (argument argv 5) in
  pda <- pda senderKeypair workerKeypair id ;;
  instructionData <- instructionData id quantity ;;
  let transaction := add [] (instruction senderKeypair workerKeypair
                               pda instructionData) in
  Ok {| cluster := "devnet";
        transaction := transaction;
        signers := [senderKeypair] |}.

End CreateQuantity.

(** src/unnamed/part_001: the read operation. *)
Module Read.

Definition echoSchema : borsh.Schema :=
  {| borsh.struct :=
       [("variant", borsh.u8); ("id", borsh.string_t); ("number", borsh.u64)] |}.

Definition programId : PublicKey :=
  Eval vm_compute in
    unwrap (PublicKey_of_string "D1JKf9t3tEBzP7jES8bUzCQdLSYSqfcJ2S558AbQruJm").

Section Script.

Context `{host : Host}.
Variables (senderKeypair workerKeypair : Keypair) (id : JsArg).

Definition pda : Result PublicKey :=
  seed <- Buffer_from id ;;
  '(address, _) <- findProgramAddressSync
                     [toBuffer (publicKey senderKeypair);
                      toBuffer (publicKey workerKeypair);
                      seed]
                     programId ;;
  Ok address.

Definition instructionData : Result (list byte) :=
  borsh.serialize echoSchema
    [("variant", VNumber (Num 3)); ("id", value_of_arg id);
     ("number", VNumber (Num 0))].

Definition instruction (pda : PublicKey) (instructionData : list byte)
  : TransactionInstruction :=
  {| keys :=
       [ {| pubkey := publicKey senderKeypair;
            isSigner := true;
            isWritable := true |};
         {| pubkey := publicKey workerKeypair;
            isSigner := false;
            isWritable := false |};
         {| pubkey := pda;
            isSigner := false;
            isWritable := true |} ];
     web3.programId := programId;
     data := instructionData |}.

End Script.

Definition main `{host : Host} (argv : list string) : Result Submission :=
  senderKeypair <- getKeypairFromEnvironment (argument argv 2) ;;
  workerKeypair <- getKeypairFromEnvironment (argument argv 3) ;;
  let id := argument argv 4 in
  pda <- pda senderKeypair workerKeypair id ;;
  instructionData <- instructionData id ;;
  let transaction := add [] (instruction senderKeypair workerKeypair
                               pda instructionData) in
  Ok {| cluster := "devnet";
        transaction := transaction;
        signers := [senderKeypair] |}.

End Read.

(** src/client-lib/create-contract.ts.  The instruction comes from
    [createContract] of ./contract-client, which is not among the sources:
    it is a parameter of the script. *)
Module CreateContract.

Section Script.

Context `{host : Host}.
Variable createContract :
PublicKey -> PublicKey -> JsArg -> JsNumber -> Result TransactionInstruction.

Definition main (argv : list string) : Result Submission :=
senderKeypair <- getKeypairFromEnvironment (argument argv 2) ;;
workerKeypair <- getKeypairFromEnvironment (argument argv 3) ;;
let id := argument argv 4 in
let quantity := parseInt_arg (argument argv 5) in
instruction <- createContract (publicKey senderKeypair) (publicKey workerKeypair)
               id quantity ;;
let transaction := add [] instruction in
Ok {| cluster := "devnet";
    transaction := transaction;
    signers := [senderKeypair] |}.

End Script.

End CreateContract.

(** src/unnamed/part_002.  The instruction comes from [incrementStep] of
    ./contract-client, a parameter of the script like [createContract]. *)
Module IncrementStep.

Section Script.

Context `{host : Host}.
Variable incrementStep :
PublicKey -> PublicKey -> JsArg -> Result TransactionInstruction.

Definition main (argv : list string) : Result Submission :=
senderKeypair <- getKeypairFromEnvironment (argument argv 2) ;;
workerKeypair <- getKeypairFromEnvironment (argument argv 3) ;;
let id := argument argv 4 in
instruction <- incrementStep (publicKey senderKeypair) (publicKey workerKeypair) id ;;
let transaction := add [] instruction in
Ok {| cluster := "devnet";
    transaction := transaction;
    signers := [senderKeypair] |}.

End Script.

End IncrementStep.

(** ** Notions the statements use *)

(** The record the scripts serialise, for a discriminant, an identifier
    and a number. *)
Definition operationRecord (variant : Z) (id : string) (number : Z) : JsObject :=
  [("variant", VNumber (Num variant)); ("id", VString id);
   ("number", VNumber (Num number))].

(** What a decoder of the same schema gives back: the 64-bit field comes
    back as a BigInt. *)
Definition decodedRecord (variant : Z) (id : string) (number : Z) : JsObject :=
  [("variant", VNumber (Num variant)); ("id", VString id);
   ("number", VBigInt number)].

(** The bytes of the wire layout: one byte, four bytes of length and the
    string, eight bytes of number. *)
Definition wireLayout (variant : Z) (id : string) (number : Z) : list byte :=
  [byte_of_Z variant]
    ++ encode_le 4 (Z.of_nat (String.length id))
    ++ list_byte_of_string id
    ++ encode_le 8 number.

(** The accounts of an instruction that must sign. *)
Definition signerAccounts (instruction : TransactionInstruction) : list AccountMeta :=
  filter isSigner (keys instruction).

(** The fixed layout of a payload for the identifier [id]: one byte of
    discriminant, four bytes holding the length of the string, the bytes
    of the string, eight bytes of number, in that order. *)
Definition fixedLayout (id : string) (payload : list byte) : Prop :=
  exists (discriminant : byte) (lengthPrefix number : list byte),
    payload = [discriminant] ++ lengthPrefix ++ list_byte_of_string id ++ number
    /\ List.length lengthPrefix = 4%nat
    /\ decode_le lengthPrefix = Z.of_nat (String.length id) mod 2 ^ 32
    /\ List.length number = 8%nat.

(** A seed the derivation accepts. *)
Definition shortSeed (seed : list byte) : Prop :=
  Z.of_nat (List.length seed) <= MAX_SEED_LENGTH.

(** A nonce is viable for the seeds when the address it gives is
    accepted: the hash is off the curve and fits a public key. *)
Definition viableNonce `{host : Host} (seeds : list (list byte)) (programId : PublicKey)
  : Prop :=
  exists (nonce : nat) (address : PublicKey),
    (1 <= nonce <= 255)%nat
    /\ createProgramAddressSync (seeds ++ [[byte_of_Z (Z.of_nat nonce)]]) programId
       = Ok address.

(** The submission [sub] of a run on [argv] has the initiator as its only
    signer: the one account flagged as signer is the initiator's, the
    second account is the counterparty's and is not flagged, and the
    transaction is signed with the initiator's key pair alone. *)
Definition soleSigner `{host : Host} (argv : list string) (sub : Submission) : Prop :=
  exists (senderKeypair workerKeypair : Keypair) (instruction : TransactionInstruction),
    getKeypairFromEnvironment (argument argv 2) = Ok senderKeypair
    /\ getKeypairFromEnvironment (argument argv 3) = Ok workerKeypair
    /\ transaction sub = [instruction]
    /\ signerAccounts instruction
       = [ {| pubkey := publicKey senderKeypair;
              isSigner := true;
              isWritable := true |} ]
    /\ (exists meta,
          nth_error (keys instruction) 1 = Some meta
          /\ pubkey meta = publicKey workerKeypair
          /\ isSigner meta = false)
    /\ signers sub = [senderKeypair].

(** The address the search returns for the seeds: the one of the largest
    nonce in 255..1 that is viable. *)
Definition derivedAddress `{host : Host} (seeds : list (list byte)) (programId : PublicKey)
  (address : PublicKey) : Prop :=
  exists nonce : nat,
    (1 <= nonce <= 255)%nat
    /\ createProgramAddressSync (seeds ++ [[byte_of_Z (Z.of_nat nonce)]]) programId
       = Ok address
    /\ forall (above : nat) (other : PublicKey),
        (nonce < above <= 255)%nat ->
        createProgramAddressSync (seeds ++ [[byte_of_Z (Z.of_nat above)]]) programId
        <> Ok other.

(** The seeds of the scripts for two key pairs and an identifier. *)
Definition scriptSeeds (senderKeypair workerKeypair : Keypair) (id : string)
  : list (list byte) :=
  [toBuffer (publicKey senderKeypair); toBuffer (publicKey workerKeypair);
   list_byte_of_string id].

(** The bytes that are hashed for one nonce. *)
Definition hashedBuffer (sender worker : PublicKey) (id : string) (nonce : nat)
  (programId : PublicKey) : list byte :=
  toBuffer sender ++ toBuffer worker ++ list_byte_of_string id
    ++ [byte_of_Z (Z.of_nat nonce)]
    ++ toBuffer programId ++ list_byte_of_string "ProgramDerivedAddress".

(** A string of decimal digits and the number it writes. *)
Definition decimalDigits (s : string) : Prop :=
  s <> EmptyString /\ Forall (fun c => 48 <= c <= 57) (codes s).

Definition decimalValue (s : string) : Z :=
  fold_left (fun acc c => acc * 10 + (c - 48)) (codes s) 0.

(** What of a run reaches the network besides the signatures: the
    cluster and the transaction, or the exception. *)
Definition transactionOf (run : Result Submission) : Result (string * Transaction) :=
  sub <- run ;; Ok (cluster sub, transaction sub).

(** ** A host for the worked examples *)

Definition sampleSender : Keypair :=
  {| publicKey := {| _bn := 1001 |}; secretKey := ["001"%byte] |}.

(** The same public key under another secret. *)
Definition sampleSender' : Keypair :=
  {| publicKey := {| _bn := 1001 |}; secretKey := ["002"%byte] |}.

Definition sampleWorker : Keypair :=
  {| publicKey := {| _bn := 2002 |}; secretKey := ["003"%byte] |}.

(** A stand-in host: the hash is replaced by the reversed input cut to 32
    bytes, nothing is on the curve, and the environment holds two key
    pairs. *)
Definition sampleHost : Host :=
  {| sha256 := fun buffer => firstn 32 (rev buffer);
     isOnCurve := fun _ => false;
     environment := fun name =>
       if String.eqb name "SENDER" then Some sampleSender
       else if String.eqb name "WORKER" then Some sampleWorker
       else None |}.

(** The environment of [sampleHost] with another secret for the
    initiator. *)
Definition sampleEnvironment' (name : string) : option Keypair :=
  if String.eqb name "SENDER" then Some sampleSender'
  else @environment sampleHost name.

Definition sampleArgv (rest : list string) : list string :=
  "node" :: "script.ts" :: "SENDER" :: "WORKER" :: rest.

(** * Properties *)

(** ** Bytes *)

Lemma Z_of_byte_range (b : byte) : 0 <= Z_of_byte b < 256.
Proof.
  unfold Z_of_byte.
  pose proof (Byte.to_N_bounded b) as Hb.
  lia.
Qed.

Lemma byte_of_Z_of_byte (b : byte) : byte_of_Z (Z_of_byte b) = b.
Proof.
  destruct b; reflexivity.
Qed.

Lemma land_255 (z : Z) : Z.land z 255 = z mod 256.
Proof.
  change 255 with (Z.ones 8).
  rewrite Z.land_ones by lia.
  reflexivity.
Qed.

Lemma Z_of_byte_of_Z (z : Z) : Z_of_byte (byte_of_Z z) = z mod 256.
Proof.
  unfold byte_of_Z, Z_of_byte.
  rewrite land_255.
  pose proof (Z.mod_pos_bound z 256 ltac:(lia)) as Hm.
  destruct (Byte.of_N (Z.to_N (z mod 256))) as [b|] eqn:E.
  - apply Byte.to_of_N in E. rewrite E. lia.
  - apply Byte.of_N_None_iff in E. lia.
Qed.

Lemma encode_le_length (len : nat) (value : Z) :
  List.length (encode_le len value) = len.
Proof.
  revert value.
  induction len as [|k IH]; intros value; simpl; [reflexivity|].
  now rewrite IH.
Qed.

Lemma decode_encode_le (len : nat) (value : Z) :
  decode_le (encode_le len value) = value mod 2 ^ (8 * Z.of_nat len).
Proof.
  revert value.
  induction len as [|k IH]; intros value.
  - simpl. now rewrite Z.mod_1_r.
  - cbn [encode_le decode_le].
    rewrite IH, Z_of_byte_of_Z, land_255, Z.mod_mod by lia.
    rewrite Z.shiftr_div_pow2 by lia.
    replace (8 * Z.of_nat (S k)) with (8 + 8 * Z.of_nat k) by lia.
    rewrite Z.pow_add_r by lia.
    change (2 ^ 8) with 256.
    rewrite Z.rem_mul_r by lia.
    reflexivity.
Qed.

Lemma decode_encode_le_small (len : nat) (value : Z) :
  0 <= value < 2 ^ (8 * Z.of_nat len) ->
  decode_le (encode_le len value) = value.
Proof.
  intros Hv.
  rewrite decode_encode_le.
  now apply Z.mod_small.
Qed.

Lemma length_list_byte_of_string (s : string) :
  List.length (list_byte_of_string s) = String.length s.
Proof.
  unfold list_byte_of_string.
  rewrite length_map.
  induction s as [|c s IH]; simpl; [reflexivity|].
  now rewrite IH.
Qed.

Lemma decode_le_inj (l1 l2 : list byte) :
  List.length l1 = List.length l2 -> decode_le l1 = decode_le l2 -> l1 = l2.
Proof.
  revert l2.
  induction l1 as [|a l1 IH]; intros [|b l2] Hlen Hdec; try discriminate.
  - reflexivity.
  - cbn [decode_le] in Hdec.
    pose proof (Z_of_byte_range a) as Ha.
    pose proof (Z_of_byte_range b) as Hb.
    assert (Hab : Z_of_byte a = Z_of_byte b /\ decode_le l1 = decode_le l2) by lia.
    destruct Hab as [Hhead Htail].
    f_equal.
    + rewrite <- (byte_of_Z_of_byte a), <- (byte_of_Z_of_byte b).
      now rewrite Hhead.
    + apply IH; [now injection Hlen | exact Htail].
Qed.

(** Only the low [8 * len] bits of the value reach the bytes. *)
Lemma encode_le_mod (len : nat) (value : Z) :
  encode_le len (value mod 2 ^ (8 * Z.of_nat len)) = encode_le len value.
Proof.
  apply decode_le_inj.
  - now rewrite !encode_le_length.
  - rewrite !decode_encode_le.
    apply Z.mod_mod.
    apply Z.pow_nonzero; lia.
Qed.

Lemma encode_le_1 (value : Z) : encode_le 1 value = [byte_of_Z value].
Proof.
  apply decode_le_inj; [reflexivity|].
  cbn [encode_le decode_le].
  rewrite !Z_of_byte_of_Z, land_255.
  now rewrite Z.mod_mod by lia.
Qed.

(** ** borsh: the bytes of a record and their reading *)

Lemma consume_bytes_app (a b : list byte) :
  borsh.consume_bytes (List.length a) (a ++ b) = Ok (a, b).
Proof.
  unfold borsh.consume_bytes.
  rewrite length_app.
  destruct (Nat.ltb_spec (List.length a + List.length b) (List.length a)) as [Hlt|_];
    [lia|].
  f_equal. f_equal.
  - induction a as [|x a IH]; simpl; [reflexivity | now rewrite IH].
  - induction a as [|x a IH]; simpl; [reflexivity | exact IH].
Qed.

(** Serialising the record of a discriminant, an identifier and an
    integer always succeeds and gives the wire layout. *)
Lemma serialize_operationRecord (variant : Z) (id : string) (number : Z) :
  borsh.serialize IncrementWorker.echoSchema (operationRecord variant id number)
  = Ok (wireLayout variant id number).
Proof.
  unfold borsh.serialize, operationRecord, wireLayout.
  cbn [IncrementWorker.echoSchema borsh.struct borsh.encode_struct get String.eqb
       Ascii.eqb Bool.eqb borsh.encode_value borsh.encode_string bind].
  unfold borsh.encode_integer.
  cbn [borsh.size Z.leb Z.compare Pos.compare Pos.compare_cont BigInt bind].
  unfold borsh.store_value.
  change (Z.to_nat (8 / 8)) with 1%nat.
  change (Z.to_nat (64 / 8)) with 8%nat.
  rewrite !encode_le_mod, encode_le_1, length_list_byte_of_string.
  now rewrite app_nil_r, <- !app_assoc.
Qed.

Lemma deserialize_wireLayout (variant : Z) (id : string) (number : Z) :
  0 <= variant < 256 ->
  Z.of_nat (String.length id) < 2 ^ 32 ->
  0 <= number < 2 ^ 64 ->
  borsh.deserialize IncrementWorker.echoSchema (wireLayout variant id number)
  = Ok (decodedRecord variant id number).
Proof.
  intros Hv Hlen Hn.
  unfold borsh.deserialize, wireLayout, decodedRecord.
  cbn [IncrementWorker.echoSchema borsh.struct borsh.decode_struct borsh.decode_value].
  unfold borsh.decode_integer, borsh.decode_string.
  cbn [borsh.size Z.leb Z.compare Pos.compare Pos.compare_cont].
  change (Z.to_nat (8 / 8)) with (List.length [byte_of_Z variant]).
  rewrite consume_bytes_app. cbn [bind].
  change 4%nat with (List.length (encode_le 4 (Z.of_nat (String.length id)))) at 1.
  rewrite consume_bytes_app. cbn [bind].
  rewrite decode_encode_le_small by (change (2 ^ (8 * Z.of_nat 4)) with (2 ^ 32); lia).
  rewrite Nat2Z.id, <- length_list_byte_of_string.
  rewrite consume_bytes_app. cbn [bind].
  rewrite string_of_list_byte_of_string.
  change (Z.to_nat (64 / 8)) with 8%nat.
  rewrite <- (app_nil_r (encode_le 8 number)).
  rewrite <- (encode_le_length 8 number) at 1.
  rewrite consume_bytes_app. cbn [bind].
  rewrite decode_encode_le_small by (change (2 ^ (8 * Z.of_nat 8)) with (2 ^ 64); lia).
  cbn [decode_le].
  rewrite Z_of_byte_of_Z, Z.mod_small by lia.
  now rewrite Z.mul_0_r, Z.add_0_r.
Qed.

Lemma Ok_inj {A : Type} (a b : A) : Ok a = Ok b -> a = b.
Proof.
  intros Heq. now inversion Heq.
Qed.

(** The program identifiers the scripts write in base 58 are public keys:
    the constructor accepts them. *)
Lemma programId_decoded :
  PublicKey_of_string "D1JKf9t3tEBzP7jES8bUzCQdLSYSqfcJ2S558AbQruJm"
  = Ok IncrementWorker.programId
  /\ CreateQuantity.programId = IncrementWorker.programId
  /\ Read.programId = IncrementWorker.programId
  /\ PublicKey_of_string "11111111111111111111111111111111"
     = Ok SystemProgram.programId.
Proof.
  repeat split; vm_compute; reflexivity.
Qed.

(** The three scripts that serialise a payload declare the same schema. *)
Lemma echoSchema_shared :
  CreateQuantity.echoSchema = IncrementWorker.echoSchema
  /\ Read.echoSchema = IncrementWorker.echoSchema.
Proof.
  split; reflexivity.
Qed.

(** C1, as stated, fails on numeric arguments the scripts can receive.  The
    argument "abc" parses to [NaN], which has no encoding: the serialiser
    throws.  The arguments "0" and "18446744073709551616" parse to two
    numbers with the same encoding.  The argument "-1" parses to -1, which
    a decoder of the same schema reads back as 18446744073709551615. *)
Lemma encoding_fails_outside_field_ranges :
  (parseInt_arg (Some "abc") = NaN
   /\ borsh.serialize IncrementWorker.echoSchema
        [("variant", VNumber (Num 2)); ("id", VString "job-1");
         ("number", VNumber NaN)]
      = Throw RangeError)
  /\ (parseInt_arg (Some "0") = Num 0
      /\ parseInt_arg (Some "18446744073709551616") = Num 18446744073709551616
      /\ 0 <> 18446744073709551616
      /\ borsh.serialize IncrementWorker.echoSchema (operationRecord 2 "job-1" 0)
         = borsh.serialize IncrementWorker.echoSchema
             (operationRecord 2 "job-1" 18446744073709551616))
  /\ (parseInt_arg (Some "-1") = Num (-1)
      /\ (bytes <- borsh.serialize IncrementWorker.echoSchema
                     (operationRecord 2 "job-1" (-1)) ;;
          borsh.deserialize IncrementWorker.echoSchema bytes)
         = Ok (decodedRecord 2 "job-1" 18446744073709551615)
      /\ decodedRecord 2 "job-1" 18446744073709551615
         <> decodedRecord 2 "job-1" (-1)).
Proof.
  split; [split; vm_compute; reflexivity|].
  split.
  - split; [vm_compute; reflexivity|].
    split; [vm_compute; reflexivity|].
    split; [discriminate|].
    vm_compute. reflexivity.
  - split; [vm_compute; reflexivity|].
    split; [vm_compute; reflexivity|].
    discriminate.
Qed.

(** C1, amended.  The encoding of the operation record (a one-byte variant,
    a borsh string, a u64 number) is defined for every record of a
    discriminant, an identifier and an integer.  For a discriminant that
    fits one byte, an identifier whose length fits the four-byte prefix and
    a number that fits 64 bits, a decoder of the same schema gives the
    three fields back, and no other such triple has the same bytes. *)
Theorem encoding_total_injective_roundtrip (variant : Z) (id : string) (number : Z) :
  exists bytes,
    borsh.serialize IncrementWorker.echoSchema (operationRecord variant id number)
    = Ok bytes
    /\ (0 <= variant < 256 ->
        Z.of_nat (String.length id) < 2 ^ 32 ->
        0 <= number < 2 ^ 64 ->
        borsh.deserialize IncrementWorker.echoSchema bytes
        = Ok (decodedRecord variant id number)
        /\ forall variant' id' number',
            0 <= variant' < 256 ->
            Z.of_nat (String.length id') < 2 ^ 32 ->
            0 <= number' < 2 ^ 64 ->
            borsh.serialize IncrementWorker.echoSchema
              (operationRecord variant' id' number') = Ok bytes ->
            variant' = variant /\ id' = id /\ number' = number).
Proof.
  exists (wireLayout variant id number).
  split; [apply serialize_operationRecord|].
  intros Hv Hlen Hn.
  split; [now apply deserialize_wireLayout|].
  intros variant' id' number' Hv' Hlen' Hn' Hser.
  rewrite serialize_operationRecord in Hser.
  apply Ok_inj in Hser.
  pose proof (deserialize_wireLayout variant id number Hv Hlen Hn) as Hdec.
  pose proof (deserialize_wireLayout variant' id' number' Hv' Hlen' Hn') as Hdec'.
  rewrite Hser, Hdec in Hdec'.
  apply Ok_inj in Hdec'.
  unfold decodedRecord in Hdec'.
  inversion Hdec'.
  now repeat split.
Qed.

Lemma encoding_total_injective_roundtrip_witness :
  exists bytes,
    borsh.serialize IncrementWorker.echoSchema (operationRecord 2 "job-1" 5) = Ok bytes
    /\ borsh.deserialize IncrementWorker.echoSchema bytes = Ok (decodedRecord 2 "job-1" 5).
Proof.
  destruct (encoding_total_injective_roundtrip 2 "job-1" 5) as [bytes [Hser Hrest]].
  exists bytes.
  split; [exact Hser|].
  apply Hrest.
  - lia.
  - vm_compute. reflexivity.
  - lia.
Defined.


(** ** The payload of each script *)

Lemma IncrementWorker_payload (id : string) :
  IncrementWorker.instructionData (Some id) = Ok (wireLayout 4 id 0).
Proof.
  exact (serialize_operationRecord 4 id 0).
Qed.

Lemma CreateQuantity_payload (id : string) (quantity : Z) :
  CreateQuantity.instructionData (Some id) (Num quantity)
  = Ok (wireLayout 2 id quantity).
Proof.
  exact (serialize_operationRecord 2 id quantity).
Qed.

Lemma Read_payload (id : string) :
  Read.instructionData (Some id) = Ok (wireLayout 3 id 0).
Proof.
  exact (serialize_operationRecord 3 id 0).
Qed.

(** C2.  The first byte of the payload is a constant of the script: 4 in
    the increment-step script, 2 in the create / quantity script (which is
    both the create and the quantity-adjust path) and 3 in the read script,
    whatever the identifier and the quantity. *)
Theorem discriminant_constants (id : string) (quantity : Z) :
  (exists rest, IncrementWorker.instructionData (Some id) = Ok ("004"%byte :: rest))
  /\ (exists rest,
        CreateQuantity.instructionData (Some id) (Num quantity)
        = Ok ("002"%byte :: rest))
  /\ (exists rest, Read.instructionData (Some id) = Ok ("003"%byte :: rest)).
Proof.
  rewrite IncrementWorker_payload, CreateQuantity_payload, Read_payload.
  unfold wireLayout.
  repeat split; eexists; reflexivity.
Qed.

Lemma wireLayout_fixedLayout (variant : Z) (id : string) (number : Z) :
  fixedLayout id (wireLayout variant id number).
Proof.
  exists (byte_of_Z variant), (encode_le 4 (Z.of_nat (String.length id))),
    (encode_le 8 number).
  split; [reflexivity|].
  split; [apply encode_le_length|].
  split; [apply decode_encode_le | apply encode_le_length].
Qed.

(** C3.  Every payload one of the three scripts builds has the fixed
    layout: one byte of discriminant, then the identifier with its
    four-byte length in front, then the eight bytes of the 64-bit number.
    A payload is built only for an identifier that is a string. *)
Theorem payload_fixed_layout (id : JsArg) (quantity : JsNumber) (payload : list byte) :
  (IncrementWorker.instructionData id = Ok payload ->
   exists s, id = Some s /\ fixedLayout s payload)
  /\ (CreateQuantity.instructionData id quantity = Ok payload ->
      exists s, id = Some s /\ fixedLayout s payload)
  /\ (Read.instructionData id = Ok payload ->
      exists s, id = Some s /\ fixedLayout s payload).
Proof.
  destruct id as [s|].
  - split; [|split]; intros Hdata; exists s; (split; [reflexivity|]).
    + rewrite IncrementWorker_payload in Hdata.
      apply Ok_inj in Hdata. subst payload.
      apply wireLayout_fixedLayout.
    + destruct quantity as [q| |negative].
      * rewrite CreateQuantity_payload in Hdata.
        apply Ok_inj in Hdata. subst payload.
        apply wireLayout_fixedLayout.
      * discriminate Hdata.
      * discriminate Hdata.
    + rewrite Read_payload in Hdata.
      apply Ok_inj in Hdata. subst payload.
      apply wireLayout_fixedLayout.
  - split; [|split]; intros Hdata; discriminate Hdata.
Qed.

Lemma payload_fixed_layout_witness :
  exists s, Some "job-1" = Some s
            /\ fixedLayout s (wireLayout 2 "job-1" 5).
Proof.
  apply (proj1 (proj2 (payload_fixed_layout (Some "job-1") (Num 5)
                         (wireLayout 2 "job-1" 5)))).
  reflexivity.
Defined.

(** C9.  In the increment-step script and in the read script the eight
    bytes of the 64-bit number, which follow the discriminant, the length
    and the identifier, are all zero, whatever the identifier. *)
Theorem number_field_zero (id : string) :
  (exists head,
      IncrementWorker.instructionData (Some id) = Ok (head ++ repeat "000"%byte 8)
      /\ List.length head = (1 + 4 + String.length id)%nat)
  /\ (exists head,
        Read.instructionData (Some id) = Ok (head ++ repeat "000"%byte 8)
        /\ List.length head = (1 + 4 + String.length id)%nat).
Proof.
  rewrite IncrementWorker_payload, Read_payload.
  unfold wireLayout.
  split.
  - exists ([byte_of_Z 4] ++ encode_le 4 (Z.of_nat (String.length id))
              ++ list_byte_of_string id).
    split.
    + now rewrite <- !app_assoc.
    + rewrite !length_app, encode_le_length, length_list_byte_of_string.
      reflexivity.
  - exists ([byte_of_Z 3] ++ encode_le 4 (Z.of_nat (String.length id))
              ++ list_byte_of_string id).
    split.
    + now rewrite <- !app_assoc.
    + rewrite !length_app, encode_le_length, length_list_byte_of_string.
      reflexivity.
Qed.

(** ** The derived address *)

(** C5.  The derived address of the increment-step script is a function
    of the two public keys, the identifier and the program identifier of
    the script: two derivations whose key pairs have the same public keys
    and whose identifiers are the same give the same result, whatever else
    differs between the runs. *)
Theorem derived_address_deterministic `{host : Host}
  (sender1 worker1 sender2 worker2 : Keypair) (id : JsArg) :
  publicKey sender1 = publicKey sender2 ->
  publicKey worker1 = publicKey worker2 ->
  IncrementWorker.pda_contract sender1 worker1 id
  = IncrementWorker.pda_contract sender2 worker2 id.
Proof.
  intros Hsender Hworker.
  unfold IncrementWorker.pda_contract.
  now rewrite Hsender, Hworker.
Qed.

Lemma derived_address_deterministic_witness :
  IncrementWorker.pda_contract (host := sampleHost)
    sampleSender sampleWorker (Some "job-1")
  = IncrementWorker.pda_contract (host := sampleHost)
      sampleSender' sampleWorker (Some "job-1").
Proof.
  apply (derived_address_deterministic (host := sampleHost)
           sampleSender sampleWorker sampleSender' sampleWorker (Some "job-1"));
    reflexivity.
Defined.

(** C6.  For the same key pairs and identifier, the derivation written in
    the increment-step script, the one in the create / quantity script and
    the one in the read script give the same address. *)
Theorem derived_address_shared `{host : Host}
  (senderKeypair workerKeypair : Keypair) (id : JsArg) :
  IncrementWorker.pda_contract senderKeypair workerKeypair id
  = CreateQuantity.pda senderKeypair workerKeypair id
  /\ CreateQuantity.pda senderKeypair workerKeypair id
     = Read.pda senderKeypair workerKeypair id.
Proof.
  split; reflexivity.
Qed.

Section Derivation.

Context `{host : Host}.

Lemma toBuffer_length (key : PublicKey) : List.length (toBuffer key) = 32%nat.
Proof.
  unfold toBuffer, encode_be.
  now rewrite length_rev, encode_le_length.
Qed.

Lemma concatSeeds_short (seeds : list (list byte)) (buffer : list byte) :
  Forall shortSeed seeds ->
  concatSeeds seeds buffer = Ok (buffer ++ List.concat seeds).
Proof.
  intros Hshort. revert buffer.
  induction Hshort as [|seed rest Hseed _ IH]; intros buffer.
  - simpl. now rewrite app_nil_r.
  - cbn [concatSeeds List.concat].
    unfold shortSeed in Hseed.
    destruct (Z.ltb_spec MAX_SEED_LENGTH (Z.of_nat (List.length seed))) as [Hlt|_];
      [lia|].
    now rewrite IH, app_assoc.
Qed.

Lemma PublicKey_of_bytes_not_TypeError (value : list byte) :
  PublicKey_of_bytes value <> Throw TypeError.
Proof.
  unfold PublicKey_of_bytes.
  destruct (PUBLIC_KEY_LENGTH <? bs58.byteLength (decode_be value)); discriminate.
Qed.

(** With seeds of at most 32 bytes the derivation of one address never
    ends in a [TypeError]. *)
Lemma createProgramAddressSync_not_TypeError
  (seeds : list (list byte)) (programId : PublicKey) :
  Forall shortSeed seeds ->
  createProgramAddressSync seeds programId <> Throw TypeError.
Proof.
  intros Hshort.
  unfold createProgramAddressSync.
  rewrite (concatSeeds_short seeds [] Hshort).
  cbn [bind].
  destruct (isOnCurve _); [discriminate|].
  apply PublicKey_of_bytes_not_TypeError.
Qed.

Lemma shortSeed_with_nonce (seeds : list (list byte)) (nonce : nat) :
  Forall shortSeed seeds ->
  Forall shortSeed (seeds ++ [[byte_of_Z (Z.of_nat nonce)]]).
Proof.
  intros Hshort.
  apply Forall_app. split; [exact Hshort|].
  constructor; [|constructor].
  unfold shortSeed, MAX_SEED_LENGTH. simpl. lia.
Qed.

Lemma findNonce_not_TypeError
  (seeds : list (list byte)) (programId : PublicKey) (nonce : nat) :
  Forall shortSeed seeds ->
  findNonce seeds programId nonce <> Throw TypeError.
Proof.
  intros Hshort.
  induction nonce as [|next IH]; [discriminate|].
  cbn [findNonce].
  pose proof (createProgramAddressSync_not_TypeError _ programId
                (shortSeed_with_nonce seeds (S next) Hshort)) as Hcreate.
  destruct (createProgramAddressSync _ programId) as [address|[]];
    try discriminate; try exact IH.
  now contradiction Hcreate.
Qed.

(** The search finds an address as soon as one nonce at or below its
    start is viable. *)
Lemma findNonce_viable
  (seeds : list (list byte)) (programId : PublicKey) (start nonce : nat)
  (address : PublicKey) :
  Forall shortSeed seeds ->
  (1 <= nonce <= start)%nat ->
  createProgramAddressSync (seeds ++ [[byte_of_Z (Z.of_nat nonce)]]) programId
  = Ok address ->
  exists found, findNonce seeds programId start = Ok found.
Proof.
  intros Hshort Hrange Hviable.
  induction start as [|next IH]; [lia|].
  cbn [findNonce].
  pose proof (createProgramAddressSync_not_TypeError _ programId
                (shortSeed_with_nonce seeds (S next) Hshort)) as Hcreate.
  destruct (createProgramAddressSync (seeds ++ [[byte_of_Z (Z.of_nat (S next))]])
              programId) as [found|e] eqn:Hhere.
  - now eexists.
  - assert (Hbelow : (1 <= nonce <= next)%nat).
    { destruct (Nat.eq_dec nonce (S next)) as [->|Hne]; [|lia].
      rewrite Hhere in Hviable. discriminate. }
    destruct e; try (now apply IH).
    now contradiction Hcreate.
Qed.

(** When the search fails, it has run out of nonces: the exception is the
    [Error] after the loop and no nonce was viable. *)
Lemma findNonce_Throw
  (seeds : list (list byte)) (programId : PublicKey) (start : nat) (e : Exception) :
  Forall shortSeed seeds ->
  findNonce seeds programId start = Throw e ->
  e = Error
  /\ forall nonce address,
      (1 <= nonce <= start)%nat ->
      createProgramAddressSync (seeds ++ [[byte_of_Z (Z.of_nat nonce)]]) programId
      <> Ok address.
Proof.
  intros Hshort.
  induction start as [|next IH]; intros Hfind.
  - cbn [findNonce] in Hfind.
    split; [now inversion Hfind | intros nonce address Hrange; lia].
  - cbn [findNonce] in Hfind.
    pose proof (createProgramAddressSync_not_TypeError _ programId
                  (shortSeed_with_nonce seeds (S next) Hshort)) as Hcreate.
    destruct (createProgramAddressSync (seeds ++ [[byte_of_Z (Z.of_nat (S next))]])
                programId) as [found|e'] eqn:Hhere; [discriminate|].
    assert (Hrec : findNonce seeds programId next = Throw e).
    { destruct e'; try exact Hfind. now contradiction Hcreate. }
    destruct (IH Hrec) as [He Hnone].
    split; [exact He|].
    intros nonce address Hrange.
    destruct (Nat.eq_dec nonce (S next)) as [->|Hne].
    + rewrite Hhere. discriminate.
    + apply Hnone. lia.
Qed.

Lemma emptySeeds_short (senderKeypair workerKeypair : Keypair) :
  Forall shortSeed
    [toBuffer (publicKey senderKeypair); toBuffer (publicKey workerKeypair); []].
Proof.
  repeat constructor; unfold shortSeed, MAX_SEED_LENGTH;
    rewrite ?toBuffer_length; simpl; lia.
Qed.

(** The read script and the create / quantity script derive the address
    with the expression of the increment-step script. *)
Lemma Read_pda_eq (senderKeypair workerKeypair : Keypair) (id : JsArg) :
  Read.pda senderKeypair workerKeypair id
  = IncrementWorker.pda_contract senderKeypair workerKeypair id.
Proof.
  reflexivity.
Qed.

Lemma CreateQuantity_pda_eq (senderKeypair workerKeypair : Keypair) (id : JsArg) :
  CreateQuantity.pda senderKeypair workerKeypair id
  = IncrementWorker.pda_contract senderKeypair workerKeypair id.
Proof.
  reflexivity.
Qed.

End Derivation.

(** X15.  With the empty identifier the payload of each script is encoded,
    with four zero bytes as the length of the string.  The derivation
    accepts the empty seed: it never ends in the [TypeError] of a rejected
    seed, and it returns an address whenever one of the nonces 255..1 is
    viable for the seeds, which is the only condition the search has: a
    derivation that fails has found no viable nonce. *)
Theorem empty_identifier `{host : Host}
  (senderKeypair workerKeypair : Keypair) (quantity : Z) :
  let zero := "000"%byte in
  let seeds := [toBuffer (publicKey senderKeypair);
                toBuffer (publicKey workerKeypair); []] in
  IncrementWorker.instructionData (Some "")
  = Ok (["004"%byte; zero; zero; zero; zero] ++ encode_le 8 0)
  /\ CreateQuantity.instructionData (Some "") (Num quantity)
     = Ok (["002"%byte; zero; zero; zero; zero] ++ encode_le 8 quantity)
  /\ Read.instructionData (Some "")
     = Ok (["003"%byte; zero; zero; zero; zero] ++ encode_le 8 0)
  /\ IncrementWorker.pda_contract senderKeypair workerKeypair (Some "")
     <> Throw TypeError
  /\ Read.pda senderKeypair workerKeypair (Some "") <> Throw TypeError
  /\ (viableNonce seeds IncrementWorker.programId ->
      exists address,
        IncrementWorker.pda_contract senderKeypair workerKeypair (Some "") = Ok address
        /\ Read.pda senderKeypair workerKeypair (Some "") = Ok address)
  /\ (forall e,
        IncrementWorker.pda_contract senderKeypair workerKeypair (Some "") = Throw e ->
        e = Error /\ ~ viableNonce seeds IncrementWorker.programId).
Proof.
  intros zero seeds.
  pose proof (emptySeeds_short senderKeypair workerKeypair) as Hshort.
  assert (Hpda : IncrementWorker.pda_contract senderKeypair workerKeypair (Some "")
                 = ('(address, _) <- findNonce seeds IncrementWorker.programId 255 ;;
                    Ok address)) by reflexivity.
  pose proof (Read_pda_eq senderKeypair workerKeypair (Some "")) as Hread.
  split; [apply IncrementWorker_payload|].
  split; [apply CreateQuantity_payload|].
  split; [apply Read_payload|].
  assert (Hnot : IncrementWorker.pda_contract senderKeypair workerKeypair (Some "")
                 <> Throw TypeError).
  { rewrite Hpda.
    pose proof (findNonce_not_TypeError seeds IncrementWorker.programId 255 Hshort)
      as Hfind.
    destruct (findNonce seeds IncrementWorker.programId 255) as [[address nonce]|e];
      [discriminate|].
    cbn [bind]. intros Heq. apply Hfind. now inversion Heq. }
  split; [exact Hnot|].
  split; [rewrite Hread; exact Hnot|].
  split.
  - intros [nonce [address [Hrange Hviable]]].
    destruct (findNonce_viable seeds IncrementWorker.programId 255 nonce address
                Hshort Hrange Hviable) as [[found bump] Hfound].
    exists found.
    rewrite Hread, Hpda, Hfound.
    split; reflexivity.
  - intros e Hthrow.
    rewrite Hpda in Hthrow.
    destruct (findNonce seeds IncrementWorker.programId 255) as [[found bump]|e']
      eqn:Hfind; [discriminate|].
    cbn [bind] in Hthrow.
    assert (e' = e) by now inversion Hthrow.
    subst e'.
    destruct (findNonce_Throw seeds IncrementWorker.programId 255 e Hshort Hfind)
      as [He Hnone].
    split; [exact He|].
    intros [nonce [address [Hrange Hviable]]].
    exact (Hnone nonce address Hrange Hviable).
Qed.

Lemma empty_identifier_witness :
  exists address,
    IncrementWorker.pda_contract (host := sampleHost) sampleSender sampleWorker (Some "")
    = Ok address
    /\ Read.pda (host := sampleHost) sampleSender sampleWorker (Some "") = Ok address.
Proof.
  apply (proj1 (proj2 (proj2 (proj2 (proj2 (proj2
           (empty_identifier (host := sampleHost) sampleSender sampleWorker 0))))))).
  exists 255%nat.
  eexists.
  split; [lia|].
  vm_compute. reflexivity.
Defined.

(** ** Whole runs *)

Lemma bind_Ok_inv {A B : Type} (r : Result A) (k : A -> Result B) (b : B) :
  bind r k = Ok b -> exists a, r = Ok a /\ k a = Ok b.
Proof.
  destruct r as [a|e]; cbn [bind]; intros Hk; [|discriminate].
  now exists a.
Qed.

Ltac bind_inv H x Hx :=
  apply bind_Ok_inv in H; destruct H as [x [Hx H]].

(** C4.  A run of the create / quantity script for the initiator [A], the
    counterparty [B], the identifier "job-1" and the quantity 5 submits one
    instruction.  Its payload decodes to the discriminant 2, the identifier
    "job-1" and the number 5; its accounts are [A] as signer and writable,
    [B] neither signer nor writable, the derived address writable and not
    signer, and last the system program. *)
Theorem create_scenario `{host : Host}
  (A B : Keypair) (a b node script : string) (derived : PublicKey) :
  getKeypairFromEnvironment (Some a) = Ok A ->
  getKeypairFromEnvironment (Some b) = Ok B ->
  CreateQuantity.pda A B (Some "job-1") = Ok derived ->
  exists instruction,
    CreateQuantity.main [node; script; a; b; "job-1"; "5"]
    = Ok {| cluster := "devnet"; transaction := [instruction]; signers := [A] |}
    /\ borsh.deserialize CreateQuantity.echoSchema (data instruction)
       = Ok (decodedRecord 2 "job-1" 5)
    /\ keys instruction
       = [ {| pubkey := publicKey A; isSigner := true; isWritable := true |};
           {| pubkey := publicKey B; isSigner := false; isWritable := false |};
           {| pubkey := derived; isSigner := false; isWritable := true |};
           {| pubkey := SystemProgram.programId;
              isSigner := false;
              isWritable := false |} ].
Proof.
  intros HA HB Hpda.
  exists (CreateQuantity.instruction A B derived (wireLayout 2 "job-1" 5)).
  split; [|split].
  - unfold CreateQuantity.main.
    change (argument [node; script; a; b; "job-1"; "5"] 2) with (Some a).
    change (argument [node; script; a; b; "job-1"; "5"] 3) with (Some b).
    change (argument [node; script; a; b; "job-1"; "5"] 4) with (Some "job-1").
    change (parseInt_arg (argument [node; script; a; b; "job-1"; "5"] 5)) with (Num 5).
    rewrite HA. cbn [bind].
    rewrite HB. cbn [bind].
    rewrite Hpda. cbn [bind].
    rewrite CreateQuantity_payload. cbn [bind].
    reflexivity.
  - cbn [CreateQuantity.instruction data].
    apply (deserialize_wireLayout 2 "job-1" 5).
    + lia.
    + vm_compute. reflexivity.
    + lia.
  - reflexivity.
Qed.

Lemma create_scenario_witness :
  exists instruction,
    CreateQuantity.main (host := sampleHost) (sampleArgv ["job-1"; "5"])
    = Ok {| cluster := "devnet";
            transaction := [instruction];
            signers := [sampleSender] |}
    /\ borsh.deserialize CreateQuantity.echoSchema (data instruction)
       = Ok (decodedRecord 2 "job-1" 5).
Proof.
  destruct (create_scenario (host := sampleHost) sampleSender sampleWorker
              "SENDER" "WORKER" "node" "script.ts"
              {| _bn := 52219865159912566624909478731726924726891991101137328231139976003281523848492 |})
    as [instruction [Hmain [Hdata _]]].
  - reflexivity.
  - reflexivity.
  - vm_compute. reflexivity.
  - exists instruction. split; [exact Hmain | exact Hdata].
Defined.

(** C10.  In every run of the three scripts that build their instruction
    and reach the submission, exactly one account of the instruction is
    flagged as signer, the one of the initiator; the counterparty's account
    is in the list and is not flagged; and the transaction is signed with
    the initiator's key pair alone.  The two scripts that take their
    instruction from ./contract-client sign with the initiator's key pair
    alone as well. *)
Theorem initiator_sole_signer `{host : Host} (argv : list string) (sub : Submission) :
  (IncrementWorker.main argv = Ok sub -> soleSigner argv sub)
  /\ (CreateQuantity.main argv = Ok sub -> soleSigner argv sub)
  /\ (Read.main argv = Ok sub -> soleSigner argv sub)
  /\ (forall createContract,
        CreateContract.main createContract argv = Ok sub ->
        exists senderKeypair,
          getKeypairFromEnvironment (argument argv 2) = Ok senderKeypair
          /\ signers sub = [senderKeypair])
  /\ (forall incrementStep,
        IncrementStep.main incrementStep argv = Ok sub ->
        exists senderKeypair,
          getKeypairFromEnvironment (argument argv 2) = Ok senderKeypair
          /\ signers sub = [senderKeypair]).
Proof.
  split; [|split; [|split; [|split]]].
  - intros Hmain.
    unfold IncrementWorker.main in Hmain.
    bind_inv Hmain senderKeypair Hsender.
    bind_inv Hmain workerKeypair Hworker.
    bind_inv Hmain address Haddress.
    bind_inv Hmain payload Hpayload.
    apply Ok_inj in Hmain. subst sub.
    exists senderKeypair, workerKeypair,
      (IncrementWorker.instruction senderKeypair workerKeypair address payload).
    repeat (split; [reflexivity || assumption|]).
    split; [|reflexivity].
    eexists. repeat split.
  - intros Hmain.
    unfold CreateQuantity.main in Hmain.
    bind_inv Hmain senderKeypair Hsender.
    bind_inv Hmain workerKeypair Hworker.
    bind_inv Hmain address Haddress.
    bind_inv Hmain payload Hpayload.
    apply Ok_inj in Hmain. subst sub.
    exists senderKeypair, workerKeypair,
      (CreateQuantity.instruction senderKeypair workerKeypair address payload).
    repeat (split; [reflexivity || assumption|]).
    split; [|reflexivity].
    eexists. repeat split.
  - intros Hmain.
    unfold Read.main in Hmain.
    bind_inv Hmain senderKeypair Hsender.
    bind_inv Hmain workerKeypair Hworker.
    bind_inv Hmain address Haddress.
    bind_inv Hmain payload Hpayload.
    apply Ok_inj in Hmain. subst sub.
    exists senderKeypair, workerKeypair,
      (Read.instruction senderKeypair workerKeypair address payload).
    repeat (split; [reflexivity || assumption|]).
    split; [|reflexivity].
    eexists. repeat split.
  - intros createContract Hmain.
    unfold CreateContract.main in Hmain.
    bind_inv Hmain senderKeypair Hsender.
    bind_inv Hmain workerKeypair Hworker.
    bind_inv Hmain instruction Hinstruction.
    apply Ok_inj in Hmain. subst sub.
    now exists senderKeypair.
  - intros incrementStep Hmain.
    unfold IncrementStep.main in Hmain.
    bind_inv Hmain senderKeypair Hsender.
    bind_inv Hmain workerKeypair Hworker.
    bind_inv Hmain instruction Hinstruction.
    apply Ok_inj in Hmain. subst sub.
    now exists senderKeypair.
Qed.

Lemma initiator_sole_signer_witness :
  exists sub,
    IncrementWorker.main (host := sampleHost) (sampleArgv ["job-1"]) = Ok sub
    /\ soleSigner (host := sampleHost) (sampleArgv ["job-1"]) sub.
Proof.
  eexists.
  split.
  - vm_compute. reflexivity.
  - match goal with
    | |- soleSigner _ ?sub =>
        apply (proj1 (initiator_sole_signer (host := sampleHost)
                        (sampleArgv ["job-1"]) sub))
    end.
    vm_compute. reflexivity.
Defined.

(** ** A quantity that is not a number *)

Lemma CreateQuantity_payload_NaN (id : string) :
  CreateQuantity.instructionData (Some id) NaN = Throw RangeError.
Proof.
  reflexivity.
Qed.

(** C7, as stated, fails: for the argument "abc" the parse gives [NaN], and
    the create / quantity script then has no payload at all, the
    serialiser having thrown. *)
Lemma nan_quantity_not_encoded :
  parseInt_arg (Some "abc") = NaN
  /\ ~ (exists payload,
          CreateQuantity.instructionData (Some "job-1") (parseInt_arg (Some "abc"))
          = Ok payload).
Proof.
  split; [reflexivity|].
  intros [payload Hpayload].
  discriminate Hpayload.
Qed.

(** C7, amended.  When the parse of the quantity argument gives [NaN], the
    scripts make no check of their own: the create / quantity script hands
    the value to the serialiser, whose conversion to the 64-bit field throws
    a [RangeError], so that no payload is encoded and no run ends in a
    submission; with both key pairs, a string identifier and a derived
    address the run ends in that [RangeError].  The create-contract script
    hands the [NaN] unchanged to [createContract]. *)
Theorem nan_quantity_rejected `{host : Host} (argv : list string) :
  parseInt_arg (argument argv 5) = NaN ->
  (forall id,
      CreateQuantity.instructionData (Some id) (parseInt_arg (argument argv 5))
      = Throw RangeError)
  /\ (forall sub, CreateQuantity.main argv <> Ok sub)
  /\ (forall A B id derived,
        getKeypairFromEnvironment (argument argv 2) = Ok A ->
        getKeypairFromEnvironment (argument argv 3) = Ok B ->
        argument argv 4 = Some id ->
        CreateQuantity.pda A B (Some id) = Ok derived ->
        CreateQuantity.main argv = Throw RangeError)
  /\ (forall createContract A B,
        getKeypairFromEnvironment (argument argv 2) = Ok A ->
        getKeypairFromEnvironment (argument argv 3) = Ok B ->
        CreateContract.main createContract argv
        = (instruction <- createContract (publicKey A) (publicKey B)
                            (argument argv 4) NaN ;;
           Ok {| cluster := "devnet";
                 transaction := [instruction];
                 signers := [A] |})).
Proof.
  intros Hnan.
  split; [|split; [|split]].
  - intros id. rewrite Hnan. apply CreateQuantity_payload_NaN.
  - intros sub Hmain.
    unfold CreateQuantity.main in Hmain.
    bind_inv Hmain senderKeypair Hsender.
    bind_inv Hmain workerKeypair Hworker.
    bind_inv Hmain address Haddress.
    bind_inv Hmain payload Hpayload.
    rewrite Hnan in Hpayload.
    destruct (argument argv 4) as [id|]; discriminate Hpayload.
  - intros A B id derived HA HB Hid Hpda.
    unfold CreateQuantity.main.
    rewrite HA. cbn [bind].
    rewrite HB. cbn [bind].
    rewrite Hid, Hpda. cbn [bind].
    rewrite Hnan, CreateQuantity_payload_NaN.
    reflexivity.
  - intros createContract A B HA HB.
    unfold CreateContract.main.
    rewrite HA. cbn [bind].
    rewrite HB. cbn [bind].
    rewrite Hnan.
    reflexivity.
Qed.

Lemma nan_quantity_rejected_witness :
  CreateQuantity.main (host := sampleHost) (sampleArgv ["job-1"; "abc"])
  = Throw RangeError.
Proof.
  assert (Hnan : parseInt_arg (argument (sampleArgv ["job-1"; "abc"]) 5) = NaN)
    by reflexivity.
  apply (proj1 (proj2 (proj2 (nan_quantity_rejected (host := sampleHost)
                                (sampleArgv ["job-1"; "abc"]) Hnan)))
           sampleSender sampleWorker "job-1"
           {| _bn := 52219865159912566624909478731726924726891991101137328231139976003281523848492 |}).
  - reflexivity.
  - reflexivity.
  - reflexivity.
  - vm_compute. reflexivity.
Defined.

(** * Further properties of the scripts *)

(** ** Identifiers the derivation rejects *)

Section Rejection.

Context `{host : Host}.

Lemma concatSeeds_long (seeds : list (list byte)) (buffer : list byte) :
  Exists (fun seed => ~ shortSeed seed) seeds ->
  concatSeeds seeds buffer = Throw TypeError.
Proof.
  intros Hlong. revert buffer.
  induction seeds as [|seed rest IH]; intros buffer; [now inversion Hlong|].
  cbn [concatSeeds].
  destruct (Z.ltb_spec MAX_SEED_LENGTH (Z.of_nat (List.length seed))) as [_|Hfits];
    [reflexivity|].
  apply IH.
  inversion Hlong as [? ? Hseed|? ? Hrest]; subst; [|exact Hrest].
  now contradiction Hseed.
Qed.

Lemma findNonce_long
  (seeds : list (list byte)) (programId : PublicKey) (next : nat) :
  Exists (fun seed => ~ shortSeed seed) seeds ->
  findNonce seeds programId (S next) = Throw TypeError.
Proof.
  intros Hlong.
  cbn [findNonce].
  unfold createProgramAddressSync.
  rewrite concatSeeds_long by (apply Exists_app; now left).
  reflexivity.
Qed.

Lemma pda_contract_long (senderKeypair workerKeypair : Keypair) (id : string) :
  (32 < String.length id)%nat ->
  IncrementWorker.pda_contract senderKeypair workerKeypair (Some id)
  = Throw TypeError.
Proof.
  intros Hlen.
  unfold IncrementWorker.pda_contract, findProgramAddressSync.
  cbn [Buffer_from bind].
  change 255%nat with (S 254).
  rewrite findNonce_long; [reflexivity|].
  apply Exists_cons_tl, Exists_cons_tl, Exists_cons_hd.
  unfold shortSeed, MAX_SEED_LENGTH.
  rewrite length_list_byte_of_string. lia.
Qed.

Lemma pda_contract_unusable (senderKeypair workerKeypair : Keypair) (id : JsArg) :
  id = None \/ (exists s, id = Some s /\ (32 < String.length s)%nat) ->
  IncrementWorker.pda_contract senderKeypair workerKeypair id = Throw TypeError.
Proof.
  intros [->|[s [-> Hlen]]]; [reflexivity|].
  now apply pda_contract_long.
Qed.

End Rejection.

(** X1.  A run whose identifier argument is absent, or is longer than 32
    bytes, ends in a [TypeError] in each of the three scripts that derive
    the address themselves, once both key pairs are loaded: no payload is
    serialised and nothing is submitted. *)
Theorem unusable_identifier_rejected `{host : Host}
  (argv : list string) (senderKeypair workerKeypair : Keypair) :
  getKeypairFromEnvironment (argument argv 2) = Ok senderKeypair ->
  getKeypairFromEnvironment (argument argv 3) = Ok workerKeypair ->
  argument argv 4 = None
  \/ (exists s, argument argv 4 = Some s /\ (32 < String.length s)%nat) ->
  IncrementWorker.main argv = Throw TypeError
  /\ CreateQuantity.main argv = Throw TypeError
  /\ Read.main argv = Throw TypeError.
Proof.
  intros Hsender Hworker Hid.
  pose proof (pda_contract_unusable senderKeypair workerKeypair _ Hid) as Hpda.
  unfold IncrementWorker.main, CreateQuantity.main, Read.main.
  rewrite Hsender, Hworker. cbn [bind].
  change (CreateQuantity.pda senderKeypair workerKeypair (argument argv 4))
    with (IncrementWorker.pda_contract senderKeypair workerKeypair (argument argv 4)).
  change (Read.pda senderKeypair workerKeypair (argument argv 4))
    with (IncrementWorker.pda_contract senderKeypair workerKeypair (argument argv 4)).
  rewrite Hpda.
  repeat split.
Qed.

Lemma unusable_identifier_rejected_witness :
  IncrementWorker.main (host := sampleHost)
    (sampleArgv ["an identifier that is longer than thirty-two bytes"])
  = Throw TypeError
  /\ CreateQuantity.main (host := sampleHost) (sampleArgv []) = Throw TypeError.
Proof.
  split.
  - apply (unusable_identifier_rejected (host := sampleHost)
             (sampleArgv ["an identifier that is longer than thirty-two bytes"])
             sampleSender sampleWorker); [reflexivity | reflexivity |].
    right. eexists. split; [reflexivity|]. simpl. lia.
  - apply (unusable_identifier_rejected (host := sampleHost) (sampleArgv [])
             sampleSender sampleWorker); [reflexivity | reflexivity |].
    now left.
Defined.

(** X2.  When the variable named by the first or by the second argument
    holds no key pair, each of the five scripts ends in an [Error]; the
    initiator's variable is read first, so its absence decides whatever the
    other arguments are. *)
Theorem missing_keypair_rejected `{host : Host} (argv : list string)
  (createContract : PublicKey -> PublicKey -> JsArg -> JsNumber
                    -> Result TransactionInstruction)
  (incrementStep : PublicKey -> PublicKey -> JsArg -> Result TransactionInstruction) :
  getKeypairFromEnvironment (argument argv 2) = Throw Error
  \/ (exists senderKeypair,
        getKeypairFromEnvironment (argument argv 2) = Ok senderKeypair
        /\ getKeypairFromEnvironment (argument argv 3) = Throw Error) ->
  IncrementWorker.main argv = Throw Error
  /\ CreateQuantity.main argv = Throw Error
  /\ Read.main argv = Throw Error
  /\ CreateContract.main createContract argv = Throw Error
  /\ IncrementStep.main incrementStep argv = Throw Error.
Proof.
  unfold IncrementWorker.main, CreateQuantity.main, Read.main,
    CreateContract.main, IncrementStep.main.
  intros [Hsender|[senderKeypair [Hsender Hworker]]].
  - rewrite Hsender. repeat split.
  - rewrite Hsender, Hworker. repeat split.
Qed.

Lemma missing_keypair_rejected_witness :
  Read.main (host := sampleHost) ["node"; "script.ts"; "SENDER"; "NOBODY"; "job-1"]
  = Throw Error.
Proof.
  apply (missing_keypair_rejected (host := sampleHost)
           ["node"; "script.ts"; "SENDER"; "NOBODY"; "job-1"]
           (fun _ _ _ _ => Throw Error) (fun _ _ _ => Throw Error)).
  right. exists sampleSender. split; reflexivity.
Defined.

(** ** The outcome of the derivation *)

Section Search.

Context `{host : Host}.

(** The search returns the address of the largest viable nonce. *)
Lemma findNonce_Ok_iff
  (seeds : list (list byte)) (programId : PublicKey) (start : nat)
  (address : PublicKey) (bump : Z) :
  Forall shortSeed seeds ->
  findNonce seeds programId start = Ok (address, bump)
  <-> exists nonce : nat,
        bump = Z.of_nat nonce
        /\ (1 <= nonce <= start)%nat
        /\ createProgramAddressSync (seeds ++ [[byte_of_Z (Z.of_nat nonce)]]) programId
           = Ok address
        /\ forall (above : nat) (other : PublicKey),
            (nonce < above <= start)%nat ->
            createProgramAddressSync (seeds ++ [[byte_of_Z (Z.of_nat above)]]) programId
            <> Ok other.
Proof.
  intros Hshort.
  induction start as [|next IH].
  - cbn [findNonce]. split; [discriminate|].
    intros [nonce [_ [Hrange _]]]. lia.
  - cbn [findNonce].
    pose proof (createProgramAddressSync_not_TypeError _ programId
                  (shortSeed_with_nonce seeds (S next) Hshort)) as Hcreate.
    destruct (createProgramAddressSync (seeds ++ [[byte_of_Z (Z.of_nat (S next))]])
                programId) as [found|e] eqn:Hhere.
    + split.
      * intros Hfound. apply Ok_inj in Hfound. inversion Hfound; subst.
        exists (S next).
        split; [reflexivity|]. split; [lia|]. split; [exact Hhere|].
        intros above other Habove. lia.
      * intros [nonce [-> [Hrange [Hviable Hnone]]]].
        destruct (Nat.eq_dec nonce (S next)) as [->|Hne].
        -- rewrite Hhere in Hviable. apply Ok_inj in Hviable. now subst.
        -- exfalso. apply (Hnone (S next) found); [lia | exact Hhere].
    + assert (Hrec : match e with
                     | TypeError => Throw TypeError
                     | _ => findNonce seeds programId next
                     end = findNonce seeds programId next).
      { destruct e; try reflexivity. now contradiction Hcreate. }
      rewrite Hrec, IH.
      split.
      * intros [nonce [-> [Hrange [Hviable Hnone]]]].
        exists nonce.
        split; [reflexivity|]. split; [lia|]. split; [exact Hviable|].
        intros above other Habove.
        destruct (Nat.eq_dec above (S next)) as [->|Hne].
        -- rewrite Hhere. discriminate.
        -- apply Hnone. lia.
      * intros [nonce [-> [Hrange [Hviable Hnone]]]].
        assert (nonce <> S next).
        { intros ->. rewrite Hhere in Hviable. discriminate. }
        exists nonce.
        split; [reflexivity|]. split; [lia|]. split; [exact Hviable|].
        intros above other Habove. apply Hnone. lia.
Qed.

Lemma scriptSeeds_short (senderKeypair workerKeypair : Keypair) (id : string) :
  (String.length id <= 32)%nat ->
  Forall shortSeed (scriptSeeds senderKeypair workerKeypair id).
Proof.
  intros Hlen.
  repeat constructor; unfold shortSeed, MAX_SEED_LENGTH;
    rewrite ?toBuffer_length, ?length_list_byte_of_string; lia.
Qed.

Lemma pda_contract_findNonce (senderKeypair workerKeypair : Keypair) (id : string) :
  IncrementWorker.pda_contract senderKeypair workerKeypair (Some id)
  = ('(address, _) <- findNonce (scriptSeeds senderKeypair workerKeypair id)
                        IncrementWorker.programId 255 ;;
     Ok address).
Proof.
  reflexivity.
Qed.

Lemma pda_contract_Ok_iff
  (senderKeypair workerKeypair : Keypair) (id : JsArg) (address : PublicKey) :
  IncrementWorker.pda_contract senderKeypair workerKeypair id = Ok address
  <-> exists s,
        id = Some s
        /\ (String.length s <= 32)%nat
        /\ derivedAddress (scriptSeeds senderKeypair workerKeypair s)
             IncrementWorker.programId address.
Proof.
  destruct id as [s|].
  - destruct (Nat.le_gt_cases (String.length s) 32) as [Hlen|Hlen].
    + pose proof (scriptSeeds_short senderKeypair workerKeypair s Hlen) as Hshort.
      rewrite pda_contract_findNonce.
      split.
      * intros Hpda.
        destruct (findNonce (scriptSeeds senderKeypair workerKeypair s)
                    IncrementWorker.programId 255) as [[found bump]|e] eqn:Hfind;
          [|discriminate].
        cbn [bind] in Hpda. apply Ok_inj in Hpda. subst found.
        apply findNonce_Ok_iff in Hfind; [|exact Hshort].
        destruct Hfind as [nonce [_ Hnonce]].
        exists s. repeat split; [exact Hlen|].
        now exists nonce.
      * intros [s' [Hs [_ [nonce Hnonce]]]].
        injection Hs as <-.
        assert (Hfind : findNonce (scriptSeeds senderKeypair workerKeypair s)
                          IncrementWorker.programId 255
                        = Ok (address, Z.of_nat nonce)).
        { apply findNonce_Ok_iff; [exact Hshort|]. now exists nonce. }
        now rewrite Hfind.
    + rewrite pda_contract_long by exact Hlen.
      split; [discriminate|].
      intros [s' [Hs [Hlen' _]]]. injection Hs as <-. lia.
  - split; [discriminate|].
    intros [s [Hs _]]. discriminate Hs.
Qed.

Lemma pda_contract_Throw_iff
  (senderKeypair workerKeypair : Keypair) (id : JsArg) (e : Exception) :
  IncrementWorker.pda_contract senderKeypair workerKeypair id = Throw e
  <-> (e = TypeError
       /\ (id = None \/ exists s, id = Some s /\ (32 < String.length s)%nat))
      \/ (e = Error
          /\ exists s,
               id = Some s
               /\ (String.length s <= 32)%nat
               /\ ~ viableNonce (scriptSeeds senderKeypair workerKeypair s)
                      IncrementWorker.programId).
Proof.
  destruct id as [s|].
  - destruct (Nat.le_gt_cases (String.length s) 32) as [Hlen|Hlen].
    + pose proof (scriptSeeds_short senderKeypair workerKeypair s Hlen) as Hshort.
      rewrite pda_contract_findNonce.
      destruct (findNonce (scriptSeeds senderKeypair workerKeypair s)
                  IncrementWorker.programId 255) as [[found bump]|e'] eqn:Hfind;
        cbn [bind].
      * split; [discriminate|].
        apply findNonce_Ok_iff in Hfind; [|exact Hshort].
        destruct Hfind as [nonce [_ [Hrange [Hviable _]]]].
        intros [[_ [Hnone|[s' [Hs Hlen']]]]|[_ [s' [Hs [_ Hnot]]]]].
        -- discriminate Hnone.
        -- injection Hs as <-. lia.
        -- injection Hs as <-. exfalso. apply Hnot. now exists nonce, found.
      * destruct (findNonce_Throw _ _ _ _ Hshort Hfind) as [-> Hnone].
        split.
        -- intros He. assert (e = Error) by now inversion He. subst e.
           right. split; [reflexivity|].
           exists s. repeat split; [exact Hlen|].
           intros [nonce [address [Hrange Hviable]]].
           exact (Hnone nonce address Hrange Hviable).
        -- intros [[_ [Hnone'|[s' [Hs Hlen']]]]|[-> _]].
           ++ discriminate Hnone'.
           ++ injection Hs as <-. lia.
           ++ reflexivity.
    + rewrite pda_contract_long by exact Hlen.
      split.
      * intros He. assert (e = TypeError) by now inversion He. subst e.
        left. split; [reflexivity|]. right. now exists s.
      * intros [[-> _]|[_ [s' [Hs [Hlen' _]]]]]; [reflexivity|].
        injection Hs as <-. lia.
  - change (IncrementWorker.pda_contract senderKeypair workerKeypair None)
      with (@Throw PublicKey TypeError).
    split.
    + intros He. assert (e = TypeError) by now inversion He. subst e.
      left. split; [reflexivity | now left].
    + intros [[-> _]|[_ [s [Hs _]]]]; [reflexivity | discriminate Hs].
Qed.

End Search.

(** X3.  In each of the three scripts the derivation returns an address
    exactly when the identifier is a string of at most 32 bytes and some
    nonce is viable for the seeds; the address is then the one of the
    largest viable nonce in 255..1. *)
Theorem derivation_characterised `{host : Host}
  (senderKeypair workerKeypair : Keypair) (id : JsArg) (address : PublicKey) :
  let derived :=
    exists s,
      id = Some s
      /\ (String.length s <= 32)%nat
      /\ derivedAddress (scriptSeeds senderKeypair workerKeypair s)
           IncrementWorker.programId address in
  (IncrementWorker.pda_contract senderKeypair workerKeypair id = Ok address <-> derived)
  /\ (CreateQuantity.pda senderKeypair workerKeypair id = Ok address <-> derived)
  /\ (Read.pda senderKeypair workerKeypair id = Ok address <-> derived).
Proof.
  intros derived.
  change (CreateQuantity.pda senderKeypair workerKeypair id)
    with (IncrementWorker.pda_contract senderKeypair workerKeypair id).
  change (Read.pda senderKeypair workerKeypair id)
    with (IncrementWorker.pda_contract senderKeypair workerKeypair id).
  repeat split; apply pda_contract_Ok_iff.
Qed.

Lemma derivation_characterised_witness :
  exists s,
    Some "job-1" = Some s
    /\ (String.length s <= 32)%nat
    /\ derivedAddress (host := sampleHost) (scriptSeeds sampleSender sampleWorker s)
         IncrementWorker.programId
         {| _bn := 52219865159912566624909478731726924726891991101137328231139976003281523848492 |}.
Proof.
  apply (proj1 (proj1 (derivation_characterised (host := sampleHost)
                         sampleSender sampleWorker (Some "job-1") _))).
  vm_compute. reflexivity.
Defined.

(** X4.  When the derivation fails, it is with a [TypeError] exactly for
    an absent identifier or one longer than 32 bytes, and with an [Error]
    exactly for an identifier of at most 32 bytes whose seeds have no
    viable nonce; it fails in no other way. *)
Theorem derivation_failure_characterised `{host : Host}
  (senderKeypair workerKeypair : Keypair) (id : JsArg) (e : Exception) :
  let failure :=
    (e = TypeError
     /\ (id = None \/ exists s, id = Some s /\ (32 < String.length s)%nat))
    \/ (e = Error
        /\ exists s,
             id = Some s
             /\ (String.length s <= 32)%nat
             /\ ~ viableNonce (scriptSeeds senderKeypair workerKeypair s)
                    IncrementWorker.programId) in
  (IncrementWorker.pda_contract senderKeypair workerKeypair id = Throw e <-> failure)
  /\ (CreateQuantity.pda senderKeypair workerKeypair id = Throw e <-> failure)
  /\ (Read.pda senderKeypair workerKeypair id = Throw e <-> failure).
Proof.
  intros failure.
  change (CreateQuantity.pda senderKeypair workerKeypair id)
    with (IncrementWorker.pda_contract senderKeypair workerKeypair id).
  change (Read.pda senderKeypair workerKeypair id)
    with (IncrementWorker.pda_contract senderKeypair workerKeypair id).
  repeat split; apply pda_contract_Throw_iff.
Qed.

Lemma derivation_failure_characterised_witness :
  Read.pda (host := sampleHost) sampleSender sampleWorker
    (Some "an identifier that is longer than thirty-two bytes")
  = Throw TypeError.
Proof.
  apply (proj2 (proj2 (proj2 (derivation_failure_characterised (host := sampleHost)
                                sampleSender sampleWorker
                                (Some "an identifier that is longer than thirty-two bytes")
                                TypeError)))).
  left. split; [reflexivity|].
  right. eexists. split; [reflexivity|]. simpl. lia.
Defined.

(** ** The outcome of a run *)

Lemma getKeypairFromEnvironment_Throw `{host : Host} (variableName : JsArg)
  (e : Exception) :
  getKeypairFromEnvironment variableName = Throw e -> e = Error.
Proof.
  unfold getKeypairFromEnvironment.
  destruct (environment _); intros Hget; [discriminate | now inversion Hget].
Qed.

(** X5.  A run of the increment-step script reaches the submission exactly
    when both key pairs are loaded, the identifier is a string of at most
    32 bytes and an address is derived.  It then submits, on devnet and
    signed by the initiator, the one instruction whose accounts are built
    from the two public keys and that address and whose payload is the wire
    layout of (4, identifier, 0). *)
Theorem IncrementWorker_run_characterised `{host : Host}
  (argv : list string) (sub : Submission) :
  IncrementWorker.main argv = Ok sub
  <-> exists senderKeypair workerKeypair id address,
        getKeypairFromEnvironment (argument argv 2) = Ok senderKeypair
        /\ getKeypairFromEnvironment (argument argv 3) = Ok workerKeypair
        /\ argument argv 4 = Some id
        /\ (String.length id <= 32)%nat
        /\ derivedAddress (scriptSeeds senderKeypair workerKeypair id)
             IncrementWorker.programId address
        /\ sub = {| cluster := "devnet";
                    transaction :=
                      [IncrementWorker.instruction senderKeypair workerKeypair
                         address (wireLayout 4 id 0)];
                    signers := [senderKeypair] |}.
Proof.
  unfold IncrementWorker.main.
  split.
  - intros Hmain.
    bind_inv Hmain senderKeypair Hsender.
    bind_inv Hmain workerKeypair Hworker.
    bind_inv Hmain address Haddress.
    bind_inv Hmain payload Hpayload.
    apply Ok_inj in Hmain.
    apply pda_contract_Ok_iff in Haddress.
    destruct Haddress as [id [Hid [Hlen Hderived]]].
    rewrite Hid, IncrementWorker_payload in Hpayload.
    apply Ok_inj in Hpayload. subst payload.
    exists senderKeypair, workerKeypair, id, address.
    repeat (split; [assumption|]).
    now symmetry.
  - intros [senderKeypair [workerKeypair [id [address
              [Hsender [Hworker [Hid [Hlen [Hderived ->]]]]]]]]].
    assert (Haddress : IncrementWorker.pda_contract senderKeypair workerKeypair
                         (argument argv 4) = Ok address).
    { apply pda_contract_Ok_iff. now exists id. }
    rewrite Hsender. cbn [bind].
    rewrite Hworker. cbn [bind].
    rewrite Haddress. cbn [bind].
    rewrite Hid, IncrementWorker_payload.
    reflexivity.
Qed.

Lemma IncrementWorker_run_characterised_witness :
  IncrementWorker.main (host := sampleHost) (sampleArgv ["job-1"])
  = Ok {| cluster := "devnet";
          transaction :=
            [IncrementWorker.instruction sampleSender sampleWorker
               {| _bn := 52219865159912566624909478731726924726891991101137328231139976003281523848492 |}
               (wireLayout 4 "job-1" 0)];
          signers := [sampleSender] |}.
Proof.
  apply (proj2 (IncrementWorker_run_characterised (host := sampleHost)
                  (sampleArgv ["job-1"]) _)).
  exists sampleSender, sampleWorker, "job-1",
    {| _bn := 52219865159912566624909478731726924726891991101137328231139976003281523848492 |}.
  split; [reflexivity|].
  split; [reflexivity|].
  split; [reflexivity|].
  split; [simpl; lia|].
  split; [|reflexivity].
  exists 255%nat.
  split; [lia|].
  split; [vm_compute; reflexivity|].
  intros above other Habove. lia.
Defined.

Lemma sample_derivedAddress :
  derivedAddress (host := sampleHost) (scriptSeeds sampleSender sampleWorker "job-1")
    IncrementWorker.programId
    {| _bn := 52219865159912566624909478731726924726891991101137328231139976003281523848492 |}.
Proof.
  exists 255%nat.
  split; [lia|].
  split; [vm_compute; reflexivity|].
  intros above other Habove. lia.
Qed.

(** X6.  A run of the read script reaches the submission exactly when both
    key pairs are loaded, the identifier is a string of at most 32 bytes
    and an address is derived.  It then submits, on devnet and signed by
    the initiator, the one instruction of three accounts built from the two
    public keys and that address, with the wire layout of
    (3, identifier, 0) as payload. *)
Theorem Read_run_characterised `{host : Host} (argv : list string) (sub : Submission) :
  Read.main argv = Ok sub
  <-> exists senderKeypair workerKeypair id address,
        getKeypairFromEnvironment (argument argv 2) = Ok senderKeypair
        /\ getKeypairFromEnvironment (argument argv 3) = Ok workerKeypair
        /\ argument argv 4 = Some id
        /\ (String.length id <= 32)%nat
        /\ derivedAddress (scriptSeeds senderKeypair workerKeypair id)
             Read.programId address
        /\ sub = {| cluster := "devnet";
                    transaction :=
                      [Read.instruction senderKeypair workerKeypair
                         address (wireLayout 3 id 0)];
                    signers := [senderKeypair] |}.
Proof.
  unfold Read.main.
  change Read.programId with IncrementWorker.programId.
  split.
  - intros Hmain.
    bind_inv Hmain senderKeypair Hsender.
    bind_inv Hmain workerKeypair Hworker.
    bind_inv Hmain address Haddress.
    bind_inv Hmain payload Hpayload.
    apply Ok_inj in Hmain.
    rewrite Read_pda_eq in Haddress.
    apply pda_contract_Ok_iff in Haddress.
    destruct Haddress as [id [Hid [Hlen Hderived]]].
    rewrite Hid, Read_payload in Hpayload.
    apply Ok_inj in Hpayload. subst payload.
    exists senderKeypair, workerKeypair, id, address.
    repeat (split; [assumption|]).
    now symmetry.
  - intros [senderKeypair [workerKeypair [id [address
              [Hsender [Hworker [Hid [Hlen [Hderived ->]]]]]]]]].
    assert (Haddress : Read.pda senderKeypair workerKeypair (argument argv 4)
                       = Ok address).
    { rewrite Read_pda_eq. apply pda_contract_Ok_iff. now exists id. }
    rewrite Hsender. cbn [bind].
    rewrite Hworker. cbn [bind].
    rewrite Haddress. cbn [bind].
    rewrite Hid, Read_payload.
    reflexivity.
Qed.

Lemma Read_run_characterised_witness :
  Read.main (host := sampleHost) (sampleArgv ["job-1"])
  = Ok {| cluster := "devnet";
          transaction :=
            [Read.instruction sampleSender sampleWorker
               {| _bn := 52219865159912566624909478731726924726891991101137328231139976003281523848492 |}
               (wireLayout 3 "job-1" 0)];
          signers := [sampleSender] |}.
Proof.
  apply (proj2 (Read_run_characterised (host := sampleHost) (sampleArgv ["job-1"]) _)).
  exists sampleSender, sampleWorker, "job-1",
    {| _bn := 52219865159912566624909478731726924726891991101137328231139976003281523848492 |}.
  split; [reflexivity|].
  split; [reflexivity|].
  split; [reflexivity|].
  split; [simpl; lia|].
  split; [exact sample_derivedAddress | reflexivity].
Defined.

Lemma CreateQuantity_payload_Ok (id : string) (quantity : JsNumber) (payload : list byte) :
  CreateQuantity.instructionData (Some id) quantity = Ok payload ->
  exists q, quantity = Num q /\ payload = wireLayout 2 id q.
Proof.
  destruct quantity as [q| |negative]; intros Hpayload; try discriminate Hpayload.
  rewrite CreateQuantity_payload in Hpayload.
  apply Ok_inj in Hpayload.
  now exists q.
Qed.

(** X7.  A run of the create / quantity script reaches the submission
    exactly when both key pairs are loaded, the identifier is a string of
    at most 32 bytes, an address is derived and the quantity argument
    parses to an integer.  It then submits, on devnet and signed by the
    initiator, the one instruction of four accounts built from the two
    public keys and that address, with the wire layout of
    (2, identifier, quantity) as payload. *)
Theorem CreateQuantity_run_characterised `{host : Host}
  (argv : list string) (sub : Submission) :
  CreateQuantity.main argv = Ok sub
  <-> exists senderKeypair workerKeypair id address quantity,
        getKeypairFromEnvironment (argument argv 2) = Ok senderKeypair
        /\ getKeypairFromEnvironment (argument argv 3) = Ok workerKeypair
        /\ argument argv 4 = Some id
        /\ (String.length id <= 32)%nat
        /\ derivedAddress (scriptSeeds senderKeypair workerKeypair id)
             CreateQuantity.programId address
        /\ parseInt_arg (argument argv 5) = Num quantity
        /\ sub = {| cluster := "devnet";
                    transaction :=
                      [CreateQuantity.instruction senderKeypair workerKeypair
                         address (wireLayout 2 id quantity)];
                    signers := [senderKeypair] |}.
Proof.
  unfold CreateQuantity.main.
  change CreateQuantity.programId with IncrementWorker.programId.
  split.
  - intros Hmain.
    bind_inv Hmain senderKeypair Hsender.
    bind_inv Hmain workerKeypair Hworker.
    bind_inv Hmain address Haddress.
    bind_inv Hmain payload Hpayload.
    apply Ok_inj in Hmain.
    rewrite CreateQuantity_pda_eq in Haddress.
    apply pda_contract_Ok_iff in Haddress.
    destruct Haddress as [id [Hid [Hlen Hderived]]].
    rewrite Hid in Hpayload.
    apply CreateQuantity_payload_Ok in Hpayload.
    destruct Hpayload as [quantity [Hquantity ->]].
    exists senderKeypair, workerKeypair, id, address, quantity.
    repeat (split; [assumption|]).
    now symmetry.
  - intros [senderKeypair [workerKeypair [id [address [quantity
              [Hsender [Hworker [Hid [Hlen [Hderived [Hquantity ->]]]]]]]]]]].
    assert (Haddress : CreateQuantity.pda senderKeypair workerKeypair (argument argv 4)
                       = Ok address).
    { rewrite CreateQuantity_pda_eq. apply pda_contract_Ok_iff. now exists id. }
    rewrite Hsender. cbn [bind].
    rewrite Hworker. cbn [bind].
    rewrite Haddress. cbn [bind].
    rewrite Hid, Hquantity, CreateQuantity_payload.
    reflexivity.
Qed.

Lemma CreateQuantity_run_characterised_witness :
  CreateQuantity.main (host := sampleHost) (sampleArgv ["job-1"; "-7"])
  = Ok {| cluster := "devnet";
          transaction :=
            [CreateQuantity.instruction sampleSender sampleWorker
               {| _bn := 52219865159912566624909478731726924726891991101137328231139976003281523848492 |}
               (wireLayout 2 "job-1" (-7))];
          signers := [sampleSender] |}.
Proof.
  apply (proj2 (CreateQuantity_run_characterised (host := sampleHost)
                  (sampleArgv ["job-1"; "-7"]) _)).
  exists sampleSender, sampleWorker, "job-1",
    {| _bn := 52219865159912566624909478731726924726891991101137328231139976003281523848492 |},
    (-7).
  split; [reflexivity|].
  split; [reflexivity|].
  split; [reflexivity|].
  split; [simpl; lia|].
  split; [exact sample_derivedAddress|].
  split; reflexivity.
Defined.

(** X8.  A run of the create / quantity script ends in a [RangeError]
    exactly when everything before the serialisation succeeds (both key
    pairs, a string identifier of at most 32 bytes, a derived address) and
    the quantity argument does not parse to an integer. *)
Theorem CreateQuantity_RangeError_iff `{host : Host} (argv : list string) :
  CreateQuantity.main argv = Throw RangeError
  <-> exists senderKeypair workerKeypair id address,
        getKeypairFromEnvironment (argument argv 2) = Ok senderKeypair
        /\ getKeypairFromEnvironment (argument argv 3) = Ok workerKeypair
        /\ argument argv 4 = Some id
        /\ (String.length id <= 32)%nat
        /\ derivedAddress (scriptSeeds senderKeypair workerKeypair id)
             CreateQuantity.programId address
        /\ forall quantity, parseInt_arg (argument argv 5) <> Num quantity.
Proof.
  unfold CreateQuantity.main.
  change CreateQuantity.programId with IncrementWorker.programId.
  split.
  - intros Hmain.
    destruct (getKeypairFromEnvironment (argument argv 2)) as [senderKeypair|e]
      eqn:Hsender; cbn [bind] in Hmain.
    2: { apply getKeypairFromEnvironment_Throw in Hsender. subst e. discriminate. }
    destruct (getKeypairFromEnvironment (argument argv 3)) as [workerKeypair|e]
      eqn:Hworker; cbn [bind] in Hmain.
    2: { apply getKeypairFromEnvironment_Throw in Hworker. subst e. discriminate. }
    rewrite CreateQuantity_pda_eq in Hmain.
    destruct (IncrementWorker.pda_contract senderKeypair workerKeypair
                (argument argv 4)) as [address|e] eqn:Haddress; cbn [bind] in Hmain.
    2: { apply pda_contract_Throw_iff in Haddress.
         destruct Haddress as [[-> _]|[-> _]]; discriminate. }
    apply pda_contract_Ok_iff in Haddress.
    destruct Haddress as [id [Hid [Hlen Hderived]]].
    exists senderKeypair, workerKeypair, id, address.
    repeat (split; [reflexivity || assumption|]).
    intros quantity Hquantity.
    rewrite Hid, Hquantity, CreateQuantity_payload in Hmain.
    discriminate Hmain.
  - intros [senderKeypair [workerKeypair [id [address
              [Hsender [Hworker [Hid [Hlen [Hderived Hquantity]]]]]]]]].
    assert (Haddress : CreateQuantity.pda senderKeypair workerKeypair (argument argv 4)
                       = Ok address).
    { rewrite CreateQuantity_pda_eq. apply pda_contract_Ok_iff. now exists id. }
    rewrite Hsender. cbn [bind].
    rewrite Hworker. cbn [bind].
    rewrite Haddress. cbn [bind].
    rewrite Hid.
    destruct (parseInt_arg (argument argv 5)) as [q| |negative].
    + now contradiction (Hquantity q).
    + reflexivity.
    + reflexivity.
Qed.

Lemma CreateQuantity_RangeError_iff_witness :
  CreateQuantity.main (host := sampleHost) (sampleArgv ["job-1"]) = Throw RangeError.
Proof.
  apply (proj2 (CreateQuantity_RangeError_iff (host := sampleHost)
                  (sampleArgv ["job-1"]))).
  exists sampleSender, sampleWorker, "job-1",
    {| _bn := 52219865159912566624909478731726924726891991101137328231139976003281523848492 |}.
  split; [reflexivity|].
  split; [reflexivity|].
  split; [reflexivity|].
  split; [simpl; lia|].
  split; [exact sample_derivedAddress|].
  intros quantity Hquantity. discriminate Hquantity.
Defined.

(** ** The quantity argument *)

(** X9.  The create / quantity script encodes any integer quantity, and the
    64-bit field holds it modulo 2^64: a decoder of the same schema reads a
    negative quantity, or one from 2^64 on, as another number. *)
Theorem quantity_wraps_modulo (id : string) (quantity : Z) :
  Z.of_nat (String.length id) < 2 ^ 32 ->
  exists payload,
    CreateQuantity.instructionData (Some id) (Num quantity) = Ok payload
    /\ borsh.deserialize CreateQuantity.echoSchema payload
       = Ok (decodedRecord 2 id (quantity mod 2 ^ 64)).
Proof.
  intros Hlen.
  exists (wireLayout 2 id quantity).
  split; [apply CreateQuantity_payload|].
  assert (Hwrap : wireLayout 2 id quantity = wireLayout 2 id (quantity mod 2 ^ 64)).
  { unfold wireLayout.
    change (2 ^ 64) with (2 ^ (8 * Z.of_nat 8)).
    now rewrite encode_le_mod. }
  rewrite Hwrap.
  apply (deserialize_wireLayout 2 id (quantity mod 2 ^ 64)); [lia | exact Hlen |].
  apply Z.mod_pos_bound. lia.
Qed.

Lemma quantity_wraps_modulo_witness :
  exists payload,
    CreateQuantity.instructionData (Some "job-1") (Num (-1)) = Ok payload
    /\ borsh.deserialize CreateQuantity.echoSchema payload
       = Ok (decodedRecord 2 "job-1" 18446744073709551615).
Proof.
  apply (quantity_wraps_modulo "job-1" (-1)).
  vm_compute. reflexivity.
Defined.

Lemma codes_append (a b : string) : codes (a ++ b)%string = codes a ++ codes b.
Proof.
  unfold codes, list_byte_of_string.
  rewrite <- !map_app. f_equal. f_equal.
  induction a as [|c a IH]; simpl; [reflexivity | now rewrite IH].
Qed.

Lemma isDigit_decimal (c : Z) : isDigit 10 c = ((48 <=? c) && (c <=? 57)).
Proof.
  unfold isDigit, digitValue.
  repeat match goal with
         | |- context [Z.leb ?a ?b] => destruct (Z.leb_spec a b)
         end;
    cbn [andb];
    try reflexivity; try (apply Z.ltb_lt; lia); try (apply Z.ltb_ge; lia).
Qed.

(** White space is dropped only in front of the text: a first character
    below 128 that is no ASCII white space stays. *)
Lemma trimStart_ascii (c : Z) (rest : list Z) :
  c < 128 -> isAsciiWhiteSpace c = false -> trimStart (c :: rest) = c :: rest.
Proof.
  intros Hc Hws.
  cbn [trimStart]. rewrite Hws.
  destruct rest as [|c2 r2]; [reflexivity|].
  destruct (Z.eqb_spec c 194) as [->|_]; [lia|]. cbn [andb].
  destruct r2 as [|c3 r3]; [reflexivity|].
  unfold isWhiteSpace3.
  destruct (Z.eqb_spec c 225) as [->|_]; [lia|].
  destruct (Z.eqb_spec c 226) as [->|_]; [lia|].
  destruct (Z.eqb_spec c 227) as [->|_]; [lia|].
  destruct (Z.eqb_spec c 239) as [->|_]; [lia|].
  reflexivity.
Qed.

Lemma isAsciiWhiteSpace_false (c : Z) :
  32 < c -> isAsciiWhiteSpace c = false.
Proof.
  intros Hc.
  unfold isAsciiWhiteSpace.
  repeat match goal with
         | |- context [Z.eqb c ?k] => destruct (Z.eqb_spec c k) as [->|_]; [lia|]
         end.
  reflexivity.
Qed.

Lemma takeDigits_decimal (digits rest : list Z) :
  Forall (fun c => 48 <= c <= 57) digits ->
  match rest with
  | [] => True
  | c :: _ => ~ 48 <= c <= 57
  end ->
  takeDigits 10 (digits ++ rest) = digits.
Proof.
  intros Hdigits Hrest.
  induction Hdigits as [|c digits Hc _ IH].
  - destruct rest as [|c rest]; [reflexivity|].
    cbn [app takeDigits]. rewrite isDigit_decimal.
    destruct (Z.leb_spec 48 c), (Z.leb_spec c 57); cbn [andb]; try reflexivity; lia.
  - cbn [app takeDigits]. rewrite isDigit_decimal, IH.
    destruct (Z.leb_spec 48 c), (Z.leb_spec c 57); cbn [andb]; try reflexivity; lia.
Qed.

Lemma mathInt_decimal (digits : list Z) (acc : Z) :
  Forall (fun c => 48 <= c <= 57) digits ->
  0 <= acc ->
  fold_left (fun acc c => match digitValue c with
                          | Some d => acc * 10 + d
                          | None => acc
                          end) digits acc
  = fold_left (fun acc c => acc * 10 + (c - 48)) digits acc
  /\ 0 <= fold_left (fun acc c => acc * 10 + (c - 48)) digits acc.
Proof.
  intros Hdigits. revert acc.
  induction Hdigits as [|c digits Hc _ IH]; intros acc Hacc; [now split|].
  cbn [fold_left].
  assert (Hvalue : digitValue c = Some (c - 48)).
  { unfold digitValue.
    destruct (Z.leb_spec 48 c), (Z.leb_spec c 57); cbn [andb]; try reflexivity; lia. }
  rewrite Hvalue.
  apply IH. lia.
Qed.

Lemma roundToDouble_exact (negative : bool) (m : Z) :
  0 <= m < 2 ^ 53 ->
  roundToDouble negative m = Num (if negative then - m else m).
Proof.
  intros Hm.
  unfold roundToDouble.
  assert (Hlog : Z.log2 m < 53).
  { destruct (Z.eq_dec m 0) as [->|Hne]; [reflexivity|].
    apply Z.log2_lt_pow2; lia. }
  destruct (Z.ltb_spec (Z.log2 m) 53); [reflexivity | lia].
Qed.

(** The parse of a run of decimal digits, alone or followed by text that
    does not start with a digit nor with the letter of a hexadecimal
    prefix. *)
Lemma parse_decimal (negative : bool) (digits rest : list Z) :
  digits <> [] ->
  Forall (fun c => 48 <= c <= 57) digits ->
  match rest with
  | [] => True
  | c :: _ => ~ 48 <= c <= 57 /\ c <> 120 /\ c <> 88
  end ->
  fold_left (fun acc c => acc * 10 + (c - 48)) digits 0 < 2 ^ 53 ->
  (let '(R, S2) := stripHexPrefix (digits ++ rest) in
   match takeDigits R S2 with
   | [] => NaN
   | _ => roundToDouble negative (mathInt R (takeDigits R S2))
   end)
  = Num (if negative
         then - fold_left (fun acc c => acc * 10 + (c - 48)) digits 0
         else fold_left (fun acc c => acc * 10 + (c - 48)) digits 0).
Proof.
  intros Hne Hdigits Hrest Hsmall.
  assert (Hprefix : stripHexPrefix (digits ++ rest) = (10, digits ++ rest)).
  { destruct digits as [|c1 digits]; [contradiction|].
    inversion Hdigits as [|? ? Hc1 Htail]; subst.
    cbn [app stripHexPrefix].
    destruct (digits ++ rest) as [|c2 tail] eqn:Htl; [reflexivity|].
    assert (Hc2 : c2 <> 120 /\ c2 <> 88).
    { destruct digits as [|d digits].
      - cbn [app] in Htl. subst rest. tauto.
      - inversion Htail; subst. cbn [app] in Htl. injection Htl as <- _. lia. }
    destruct (Z.eqb_spec c2 120), (Z.eqb_spec c2 88); try tauto.
    now rewrite andb_false_r. }
  rewrite Hprefix.
  assert (Htake : takeDigits 10 (digits ++ rest) = digits).
  { apply takeDigits_decimal; [exact Hdigits|].
    destruct rest; tauto. }
  rewrite Htake.
  destruct (mathInt_decimal digits 0 Hdigits ltac:(lia)) as [Hvalue Hpos].
  unfold mathInt. rewrite Hvalue.
  destruct digits as [|c digits]; [contradiction|].
  apply roundToDouble_exact. lia.
Qed.

Lemma decimalDigits_codes (digits : string) :
  decimalDigits digits ->
  exists c cs, codes digits = c :: cs /\ 48 <= c <= 57
               /\ Forall (fun c => 48 <= c <= 57) (codes digits).
Proof.
  intros [Hne Hall].
  destruct digits as [|a digits]; [contradiction|].
  destruct (codes (String a digits)) as [|c cs] eqn:Hcodes; [discriminate Hcodes|].
  exists c, cs.
  split; [reflexivity|].
  split; [now inversion Hall | exact Hall].
Qed.

(** X10.  A quantity argument that starts with decimal digits writing a
    number below 2^53 is parsed as that number, whatever text follows the
    digits (provided it does not start with a digit, nor with x or X); a
    minus sign in front gives the opposite.  The create / quantity script
    then encodes exactly that number. *)
Theorem decimal_quantity_parsed (digits rest id : string) :
  decimalDigits digits ->
  match codes rest with
  | [] => True
  | c :: _ => ~ 48 <= c <= 57 /\ c <> 120 /\ c <> 88
  end ->
  decimalValue digits < 2 ^ 53 ->
  parseInt_arg (Some (digits ++ rest)%string) = Num (decimalValue digits)
  /\ parseInt_arg (Some ("-" ++ digits ++ rest)%string) = Num (- decimalValue digits)
  /\ CreateQuantity.instructionData (Some id)
       (parseInt_arg (Some (digits ++ rest)%string))
     = Ok (wireLayout 2 id (decimalValue digits)).
Proof.
  intros Hdigits Hrest Hsmall.
  destruct (decimalDigits_codes digits Hdigits) as [c [cs [Hcodes [Hc Hall]]]].
  assert (Hne : codes digits <> []) by (rewrite Hcodes; discriminate).
  unfold decimalValue in *.
  assert (Hplain : parseInt_arg (Some (digits ++ rest)%string)
                   = Num (decimalValue digits)).
  { unfold parseInt_arg, parseInt, decimalValue.
    rewrite codes_append.
    pose proof (parse_decimal false (codes digits) (codes rest)
                  Hne Hall Hrest Hsmall) as Hparse.
    rewrite Hcodes in *. cbn [app] in *.
    rewrite trimStart_ascii by (try lia; apply isAsciiWhiteSpace_false; lia).
    unfold stripSign.
    destruct (Z.eqb_spec c 45) as [->|_]; [lia|].
    destruct (Z.eqb_spec c 43) as [->|_]; [lia|].
    exact Hparse. }
  split; [exact Hplain|].
  split.
  - unfold parseInt_arg, parseInt, decimalValue.
    rewrite !codes_append.
    pose proof (parse_decimal true (codes digits) (codes rest)
                  Hne Hall Hrest Hsmall) as Hparse.
    rewrite Hcodes in *.
    change (codes "-") with [45].
    cbn [app].
    rewrite trimStart_ascii by (try lia; reflexivity).
    cbn [stripSign Z.eqb Pos.eqb].
    exact Hparse.
  - rewrite Hplain. apply CreateQuantity_payload.
Qed.

Lemma decimal_quantity_parsed_witness :
  parseInt_arg (Some ("12" ++ " units")%string) = Num (decimalValue "12").
Proof.
  apply (decimal_quantity_parsed "12" " units" "job-1").
  - split; [discriminate|].
    change (codes "12") with [49; 50].
    repeat (apply Forall_cons; [lia|]). apply Forall_nil.
  - change (codes " units") with [32; 117; 110; 105; 116; 115].
    cbv beta iota. lia.
  - vm_compute. reflexivity.
Defined.

(** X11.  A quantity argument that is empty, or whose first character is
    an ASCII character other than white space, a sign or a digit, parses
    to [NaN]; the create / quantity script then has no payload, the
    serialiser ending in a [RangeError]. *)
Theorem nondigit_quantity_not_a_number (arg id : string) :
  match codes arg with
  | [] => True
  | c :: _ => 32 < c < 128 /\ c <> 43 /\ c <> 45 /\ ~ 48 <= c <= 57
  end ->
  parseInt_arg (Some arg) = NaN
  /\ CreateQuantity.instructionData (Some id) (parseInt_arg (Some arg))
     = Throw RangeError.
Proof.
  intros Hfirst.
  assert (Hnan : parseInt_arg (Some arg) = NaN).
  { unfold parseInt_arg, parseInt.
    destruct (codes arg) as [|c rest]; [reflexivity|].
    destruct Hfirst as [Hascii [Hplus [Hminus Hdigit]]].
    rewrite trimStart_ascii by (try lia; apply isAsciiWhiteSpace_false; lia).
    unfold stripSign.
    destruct (Z.eqb_spec c 45) as [->|_]; [lia|].
    destruct (Z.eqb_spec c 43) as [->|_]; [lia|].
    assert (Hprefix : stripHexPrefix (c :: rest) = (10, c :: rest)).
    { cbn [stripHexPrefix].
      destruct rest as [|c2 rest]; [reflexivity|].
      destruct (Z.eqb_spec c 48) as [->|_]; [lia | reflexivity]. }
    rewrite Hprefix.
    cbn [takeDigits]. rewrite isDigit_decimal.
    destruct (Z.leb_spec 48 c), (Z.leb_spec c 57); cbn [andb]; try reflexivity; lia. }
  split; [exact Hnan|].
  rewrite Hnan. apply CreateQuantity_payload_NaN.
Qed.

Lemma nondigit_quantity_not_a_number_witness :
  parseInt_arg (Some "five") = NaN.
Proof.
  apply (nondigit_quantity_not_a_number "five" "job-1").
  change (codes "five") with [102; 105; 118; 101].
  cbv beta iota. lia.
Defined.

(** ** What the transaction depends on *)

Section SecretKeys.

Variables (hash : list byte -> list byte) (onCurve : list byte -> bool).
Variables (environment1 environment2 : string -> option Keypair).

Let host1 : Host :=
  {| sha256 := hash; isOnCurve := onCurve; environment := environment1 |}.
Let host2 : Host :=
  {| sha256 := hash; isOnCurve := onCurve; environment := environment2 |}.

Hypothesis samePublicKeys :
  forall name,
    option_map publicKey (environment1 name) = option_map publicKey (environment2 name).

Lemma getKeypairFromEnvironment_public (variableName : JsArg) :
  match getKeypairFromEnvironment (host := host1) variableName,
        getKeypairFromEnvironment (host := host2) variableName with
  | Ok keypair1, Ok keypair2 => publicKey keypair1 = publicKey keypair2
  | Throw e1, Throw e2 => e1 = e2
  | _, _ => False
  end.
Proof.
  unfold getKeypairFromEnvironment. cbn [environment host1 host2].
  set (name := match variableName with Some s => s | None => "undefined" end).
  pose proof (samePublicKeys name) as Hsame.
  destruct (environment1 name), (environment2 name); cbn [option_map] in Hsame;
    try discriminate Hsame; [now injection Hsame | reflexivity].
Qed.

Lemma findNonce_public
  (seeds : list (list byte)) (programId : PublicKey) (nonce : nat) :
  findNonce (host := host1) seeds programId nonce
  = findNonce (host := host2) seeds programId nonce.
Proof.
  induction nonce as [|next IH]; [reflexivity|].
  cbn [findNonce].
  change (createProgramAddressSync (host := host1)
            (seeds ++ [[byte_of_Z (Z.of_nat (S next))]]) programId)
    with (createProgramAddressSync (host := host2)
            (seeds ++ [[byte_of_Z (Z.of_nat (S next))]]) programId).
  now rewrite IH.
Qed.

Lemma pda_contract_public (sender1 worker1 sender2 worker2 : Keypair) (id : JsArg) :
  publicKey sender1 = publicKey sender2 ->
  publicKey worker1 = publicKey worker2 ->
  IncrementWorker.pda_contract (host := host1) sender1 worker1 id
  = IncrementWorker.pda_contract (host := host2) sender2 worker2 id.
Proof.
  intros Hsender Hworker.
  unfold IncrementWorker.pda_contract.
  rewrite Hsender, Hworker.
  destruct id as [s|]; cbn [Buffer_from bind]; [|reflexivity].
  unfold findProgramAddressSync.
  now rewrite findNonce_public.
Qed.

Ltac same_keypair variableName keypair1 keypair2 H :=
  pose proof (getKeypairFromEnvironment_public variableName) as H;
  destruct (getKeypairFromEnvironment (host := host1) variableName) as [keypair1|?],
           (getKeypairFromEnvironment (host := host2) variableName) as [keypair2|?];
  try contradiction;
  [|subst; cbn [bind transactionOf]; repeat split]; cbn [bind].

Lemma transaction_public_inline (argv : list string) :
  transactionOf (IncrementWorker.main (host := host1) argv)
  = transactionOf (IncrementWorker.main (host := host2) argv)
  /\ transactionOf (CreateQuantity.main (host := host1) argv)
     = transactionOf (CreateQuantity.main (host := host2) argv)
  /\ transactionOf (Read.main (host := host1) argv)
     = transactionOf (Read.main (host := host2) argv).
Proof.
  unfold IncrementWorker.main, CreateQuantity.main, Read.main.
  change (@CreateQuantity.pda) with (@IncrementWorker.pda_contract).
  change (@Read.pda) with (@IncrementWorker.pda_contract).
  same_keypair (argument argv 2) sender1 sender2 Hsender.
  same_keypair (argument argv 3) worker1 worker2 Hworker.
  rewrite (pda_contract_public sender1 worker1 sender2 worker2 (argument argv 4)
             Hsender Hworker).
  destruct (IncrementWorker.pda_contract (host := host2) sender2 worker2
              (argument argv 4)) as [address|e];
    cbn [bind transactionOf]; [|repeat split].
  destruct (IncrementWorker.instructionData (argument argv 4)),
           (CreateQuantity.instructionData (argument argv 4)
              (parseInt_arg (argument argv 5))),
           (Read.instructionData (argument argv 4));
    cbn [bind transactionOf cluster transaction];
    unfold IncrementWorker.instruction, CreateQuantity.instruction, Read.instruction;
    rewrite ?Hsender, ?Hworker; repeat split.
Qed.

Lemma transaction_public_delegating (argv : list string)
  (createContract : PublicKey -> PublicKey -> JsArg -> JsNumber
                    -> Result TransactionInstruction)
  (incrementStep : PublicKey -> PublicKey -> JsArg -> Result TransactionInstruction) :
  transactionOf (CreateContract.main (host := host1) createContract argv)
  = transactionOf (CreateContract.main (host := host2) createContract argv)
  /\ transactionOf (IncrementStep.main (host := host1) incrementStep argv)
     = transactionOf (IncrementStep.main (host := host2) incrementStep argv).
Proof.
  unfold CreateContract.main, IncrementStep.main.
  same_keypair (argument argv 2) sender1 sender2 Hsender.
  same_keypair (argument argv 3) worker1 worker2 Hworker.
  rewrite Hsender, Hworker.
  destruct (createContract _ _ _ _), (incrementStep _ _ _);
    cbn [bind transactionOf cluster transaction]; repeat split.
Qed.

End SecretKeys.

(** X12.  The transaction of a run does not depend on the secret keys: two
    environments whose variables hold key pairs with the same public keys
    give, in each of the five scripts, the same cluster and the same
    transaction, or the same exception. *)
Theorem transaction_independent_of_secret_keys
  (hash : list byte -> list byte) (onCurve : list byte -> bool)
  (environment1 environment2 : string -> option Keypair)
  (argv : list string)
  (createContract : PublicKey -> PublicKey -> JsArg -> JsNumber
                    -> Result TransactionInstruction)
  (incrementStep : PublicKey -> PublicKey -> JsArg -> Result TransactionInstruction) :
  (forall name,
      option_map publicKey (environment1 name)
      = option_map publicKey (environment2 name)) ->
  let host1 := {| sha256 := hash; isOnCurve := onCurve; environment := environment1 |} in
  let host2 := {| sha256 := hash; isOnCurve := onCurve; environment := environment2 |} in
  transactionOf (IncrementWorker.main (host := host1) argv)
  = transactionOf (IncrementWorker.main (host := host2) argv)
  /\ transactionOf (CreateQuantity.main (host := host1) argv)
     = transactionOf (CreateQuantity.main (host := host2) argv)
  /\ transactionOf (Read.main (host := host1) argv)
     = transactionOf (Read.main (host := host2) argv)
  /\ transactionOf (CreateContract.main (host := host1) createContract argv)
     = transactionOf (CreateContract.main (host := host2) createContract argv)
  /\ transactionOf (IncrementStep.main (host := host1) incrementStep argv)
     = transactionOf (IncrementStep.main (host := host2) incrementStep argv).
Proof.
  intros Hsame host1 host2.
  destruct (transaction_public_inline hash onCurve environment1 environment2
              Hsame argv) as [H1 [H2 H3]].
  destruct (transaction_public_delegating hash onCurve environment1 environment2
              Hsame argv createContract incrementStep) as [H4 H5].
  repeat split; assumption.
Qed.

Lemma transaction_independent_of_secret_keys_witness :
  transactionOf
    (CreateQuantity.main
       (host := {| sha256 := @sha256 sampleHost;
                   isOnCurve := @isOnCurve sampleHost;
                   environment := @environment sampleHost |})
       (sampleArgv ["job-1"; "5"]))
  = transactionOf
      (CreateQuantity.main
         (host := {| sha256 := @sha256 sampleHost;
                     isOnCurve := @isOnCurve sampleHost;
                     environment := sampleEnvironment' |})
         (sampleArgv ["job-1"; "5"])).
Proof.
  apply (transaction_independent_of_secret_keys
           (@sha256 sampleHost) (@isOnCurve sampleHost)
           (@environment sampleHost) sampleEnvironment'
           (sampleArgv ["job-1"; "5"])
           (fun _ _ _ _ => Throw Error) (fun _ _ _ => Throw Error)).
  intros name.
  unfold sampleEnvironment'. cbn [environment sampleHost].
  destruct (String.eqb name "SENDER"); reflexivity.
Defined.

(** ** The bytes that are hashed *)

Lemma app_inj_length {A : Type} (l1 l2 t1 t2 : list A) :
  List.length l1 = List.length l2 ->
  l1 ++ t1 = l2 ++ t2 ->
  l1 = l2 /\ t1 = t2.
Proof.
  revert l2.
  induction l1 as [|a l1 IH]; intros [|b l2] Hlen Heq; try discriminate.
  - now split.
  - cbn [app] in Heq. injection Heq as -> Heq.
    destruct (IH l2 ltac:(now injection Hlen) Heq) as [-> ->].
    now split.
Qed.

Lemma toBuffer_inj (key1 key2 : PublicKey) :
  0 <= _bn key1 < 2 ^ 256 ->
  0 <= _bn key2 < 2 ^ 256 ->
  toBuffer key1 = toBuffer key2 -> key1 = key2.
Proof.
  intros H1 H2 Heq.
  unfold toBuffer, encode_be in Heq.
  apply (f_equal (@rev byte)) in Heq.
  rewrite !rev_involutive in Heq.
  apply (f_equal decode_le) in Heq.
  change (Z.to_nat PUBLIC_KEY_LENGTH) with 32%nat in Heq.
  rewrite !decode_encode_le_small in Heq
    by (change (2 ^ (8 * Z.of_nat 32)) with (2 ^ 256); assumption).
  destruct key1, key2. cbn [_bn] in Heq. now subst.
Qed.

Lemma list_byte_of_string_inj (s1 s2 : string) :
  list_byte_of_string s1 = list_byte_of_string s2 -> s1 = s2.
Proof.
  intros Heq.
  rewrite <- (string_of_list_byte_of_string s1), <- (string_of_list_byte_of_string s2).
  now rewrite Heq.
Qed.

Lemma nonce_byte_inj (nonce1 nonce2 : nat) :
  (nonce1 <= 255)%nat -> (nonce2 <= 255)%nat ->
  byte_of_Z (Z.of_nat nonce1) = byte_of_Z (Z.of_nat nonce2) -> nonce1 = nonce2.
Proof.
  intros H1 H2 Heq.
  apply (f_equal Z_of_byte) in Heq.
  rewrite !Z_of_byte_of_Z, !Z.mod_small in Heq by lia.
  lia.
Qed.

Lemma createProgramAddressSync_hashedBuffer `{host : Host}
  (senderKeypair workerKeypair : Keypair) (id : string) (nonce : nat)
  (programId : PublicKey) :
  (String.length id <= 32)%nat ->
  createProgramAddressSync
    (scriptSeeds senderKeypair workerKeypair id ++ [[byte_of_Z (Z.of_nat nonce)]])
    programId
  = (let publicKeyBytes :=
       sha256 (hashedBuffer (publicKey senderKeypair) (publicKey workerKeypair)
                 id nonce programId) in
     if isOnCurve publicKeyBytes then Throw Error
     else PublicKey_of_bytes publicKeyBytes).
Proof.
  intros Hlen.
  unfold createProgramAddressSync.
  rewrite concatSeeds_short
    by (apply shortSeed_with_nonce; now apply scriptSeeds_short).
  cbn [bind].
  unfold hashedBuffer, scriptSeeds.
  cbn [List.concat app].
  now rewrite <- !app_assoc.
Qed.

(** X13.  For an identifier of at most 32 bytes the address of a nonce is
    computed from the hash of one buffer: the two public keys on 32 bytes
    each, the identifier, the nonce, the program identifier and a fixed
    text.  That buffer determines the two public keys, the identifier and
    the nonce: two derivations meet only through the hash. *)
Theorem hashed_buffer_injective `{host : Host}
  (sender worker sender' worker' : Keypair) (id id' : string) (nonce nonce' : nat)
  (programId : PublicKey) :
  ((String.length id <= 32)%nat ->
   createProgramAddressSync
     (scriptSeeds sender worker id ++ [[byte_of_Z (Z.of_nat nonce)]]) programId
   = (let publicKeyBytes :=
        sha256 (hashedBuffer (publicKey sender) (publicKey worker) id nonce programId) in
      if isOnCurve publicKeyBytes then Throw Error
      else PublicKey_of_bytes publicKeyBytes))
  /\ (0 <= _bn (publicKey sender) < 2 ^ 256 ->
      0 <= _bn (publicKey worker) < 2 ^ 256 ->
      0 <= _bn (publicKey sender') < 2 ^ 256 ->
      0 <= _bn (publicKey worker') < 2 ^ 256 ->
      (nonce <= 255)%nat ->
      (nonce' <= 255)%nat ->
      hashedBuffer (publicKey sender) (publicKey worker) id nonce programId
      = hashedBuffer (publicKey sender') (publicKey worker') id' nonce' programId ->
      publicKey sender = publicKey sender'
      /\ publicKey worker = publicKey worker'
      /\ id = id'
      /\ nonce = nonce').
Proof.
  split.
  - apply createProgramAddressSync_hashedBuffer.
  - intros Hs Hw Hs' Hw' Hn Hn' Heq.
    unfold hashedBuffer in Heq.
    apply app_inj_length in Heq; [|now rewrite !toBuffer_length].
    destruct Heq as [Hsender Heq].
    apply app_inj_length in Heq; [|now rewrite !toBuffer_length].
    destruct Heq as [Hworker Heq].
    rewrite !app_assoc in Heq.
    apply app_inv_tail in Heq.
    apply app_inv_tail in Heq.
    apply app_inj_tail in Heq.
    destruct Heq as [Hid Hnonce].
    split; [now apply toBuffer_inj|].
    split; [now apply toBuffer_inj|].
    split; [now apply list_byte_of_string_inj | now apply nonce_byte_inj].
Qed.

Lemma hashed_buffer_injective_witness :
  createProgramAddressSync (host := sampleHost)
    (scriptSeeds sampleSender sampleWorker "job-1" ++ [[byte_of_Z (Z.of_nat 255)]])
    IncrementWorker.programId
  = (let publicKeyBytes :=
       @sha256 sampleHost
         (hashedBuffer (publicKey sampleSender) (publicKey sampleWorker)
            "job-1" 255 IncrementWorker.programId) in
     if @isOnCurve sampleHost publicKeyBytes then Throw Error
     else PublicKey_of_bytes publicKeyBytes)
  /\ (publicKey sampleSender = publicKey sampleSender'
      /\ publicKey sampleWorker = publicKey sampleWorker
      /\ "job-1" = "job-1"
      /\ 255%nat = 255%nat).
Proof.
  destruct (hashed_buffer_injective (host := sampleHost)
              sampleSender sampleWorker sampleSender' sampleWorker
              "job-1" "job-1" 255 255 IncrementWorker.programId) as [Hhash Hinj].
  split.
  - apply Hhash. simpl. lia.
  - apply Hinj; try (cbn; lia); reflexivity.
Defined.

(** X14.  An address a script derives is the public key made of a hash
    that is off the curve: the hash of the buffer of the two public keys,
    the identifier, one nonce in 255..1 and the program identifier. *)
Theorem derived_address_off_curve `{host : Host}
  (senderKeypair workerKeypair : Keypair) (id : JsArg) (address : PublicKey) :
  IncrementWorker.pda_contract senderKeypair workerKeypair id = Ok address
  \/ CreateQuantity.pda senderKeypair workerKeypair id = Ok address
  \/ Read.pda senderKeypair workerKeypair id = Ok address ->
  exists (s : string) (nonce : nat),
    id = Some s
    /\ (1 <= nonce <= 255)%nat
    /\ let publicKeyBytes :=
         sha256 (hashedBuffer (publicKey senderKeypair) (publicKey workerKeypair)
                   s nonce IncrementWorker.programId) in
       isOnCurve publicKeyBytes = false
       /\ PublicKey_of_bytes publicKeyBytes = Ok address.
Proof.
  change (CreateQuantity.pda senderKeypair workerKeypair id)
    with (IncrementWorker.pda_contract senderKeypair workerKeypair id).
  change (Read.pda senderKeypair workerKeypair id)
    with (IncrementWorker.pda_contract senderKeypair workerKeypair id).
  intros Hpda.
  assert (Hok : IncrementWorker.pda_contract senderKeypair workerKeypair id
                = Ok address) by tauto.
  apply pda_contract_Ok_iff in Hok.
  destruct Hok as [s [Hid [Hlen [nonce [Hrange [Hviable _]]]]]].
  exists s, nonce.
  split; [exact Hid|].
  split; [exact Hrange|].
  rewrite createProgramAddressSync_hashedBuffer in Hviable by exact Hlen.
  cbv zeta in Hviable |- *.
  destruct (isOnCurve _); [discriminate Hviable | now split].
Qed.

Lemma derived_address_off_curve_witness :
  exists (s : string) (nonce : nat),
    Some "job-1" = Some s
    /\ (1 <= nonce <= 255)%nat
    /\ let publicKeyBytes :=
         @sha256 sampleHost
           (hashedBuffer (publicKey sampleSender) (publicKey sampleWorker)
              s nonce IncrementWorker.programId) in
       @isOnCurve sampleHost publicKeyBytes = false
       /\ PublicKey_of_bytes publicKeyBytes
          = Ok {| _bn := 52219865159912566624909478731726924726891991101137328231139976003281523848492 |}.
Proof.
  apply (derived_address_off_curve (host := sampleHost)
           sampleSender sampleWorker (Some "job-1")).
  left. vm_compute. reflexivity.
Defined.
